(** * The k=4 fat-tree Mininet topology of [mininet/topo-fattree.py]

    A shallow embedding of the topology script: the [Topo] graph that
    [FatTreeTopo.__init__] builds through [addSwitch], [addHost] and
    [addLink], and the command sequence [IPv6Host.config] sends to the host
    shell.  Dictionaries are [gmap]s, the calls on [self] are a state and
    exception monad over the graph. *)

From Stdlib Require Import ZArith List Ascii String DecimalString.
From stdpp Require Import base option list gmap strings.

Local Open Scope Z_scope.
Local Open Scope string_scope.

(** ** Python values used by the script *)

(** [str(i)] for an [int], as ['%s' % i] prints it. *)
Definition str (i : Z) : string := NilZero.string_of_int (Z.to_int i).

(** [range(lo, hi)]. *)
Definition range (lo hi : Z) : list Z := seqZ lo (hi - lo).

(** Exceptions.  [KeyError] is what a failed dictionary subscript raises,
    [IndexError] a list subscript out of range.  [InvalidSize] is the error
    the specification names for a bad size; no statement of the script
    raises it. *)
Inductive exn : Type :=
  | KeyError (k : Z)
  | IndexError
  | InvalidSize.

(** ** The [Topo] graph *)

Definition CPU_PORT : Z := 255.

(** The keyword options a node is added with. *)
Inductive node_opts : Type :=
  | SwitchOpts (cpuport : Z)
      (* addSwitch(name, cls=StratumBmv2Switch, cpuport=...) *)
  | HostOpts (mac ipv6 ipv6_gw : string).
      (* addHost(name, cls=IPv6Host, mac=..., ipv6=..., ipv6_gw=...) *)

Record Topo : Type := mkTopo {
  nodes : list (string * node_opts);   (* one entry per name, in the order
                                          the names were first added *)
  links : list (string * string)       (* in the order of the addLink calls *)
}.

Definition empty_topo : Topo := mkTopo [] [].

(** State and exception monad of the calls on [self]. *)
Definition TopoM (A : Type) : Type := Topo → exn + (A * Topo).

#[export] Instance TopoM_ret : MRet TopoM := λ A x t, inr (x, t).
#[export] Instance TopoM_bind : MBind TopoM := λ A B f m t,
  match m t with
  | inl e => inl e
  | inr (a, t') => f a t'
  end.

Definition raise {A} (e : exn) : TopoM A := λ _, inl e.

(** The graph keeps its nodes in a dictionary keyed by name: adding a name
    that is there replaces its options, adding a new name appends it. *)
Fixpoint add_node (name : string) (opts : node_opts)
    (ns : list (string * node_opts)) : list (string * node_opts) :=
  match ns with
  | [] => [(name, opts)]
  | n :: ns' =>
      if decide (n.1 = name) then (name, opts) :: ns'
      else n :: add_node name opts ns'
  end.

Definition addSwitch (name : string) (cpuport : Z) : TopoM string := λ t,
  inr (name, mkTopo (add_node name (SwitchOpts cpuport) (nodes t)) (links t)).

Definition addHost (name mac ipv6 ipv6_gw : string) : TopoM string := λ t,
  inr (name, mkTopo (add_node name (HostOpts mac ipv6 ipv6_gw) (nodes t)) (links t)).

Definition addLink (node1 node2 : string) : TopoM unit := λ t,
  inr (tt, mkTopo (nodes t) (links t ++ [(node1, node2)])).

(** [d[i]] *)
Definition subscript (d : gmap Z string) (i : Z) : TopoM string :=
  match d !! i with
  | Some v => mret v
  | None => raise (KeyError i)
  end.

(** [self.addLink(d1[i], d2[j])] *)
Definition addLink2 (d1 : gmap Z string) (i : Z) (d2 : gmap Z string) (j : Z) : TopoM unit :=
  a ← subscript d1 i; b ← subscript d2 j; addLink a b.

(** [self.addLink(d[i], h)] *)
Definition addLink1 (d : gmap Z string) (i : Z) (h : string) : TopoM unit :=
  a ← subscript d i; addLink a h.

(** [for x in xs: body], threading the local variables [acc]. *)
Fixpoint for_in `{MBind M, MRet M} {A B} (xs : list A) (body : B → A → M B) (acc : B) : M B :=
  match xs with
  | [] => mret acc
  | x :: xs' => acc' ← body acc x; for_in xs' body acc'
  end.

(** The three dictionaries of [__init__]. *)
Record Switches : Type := mkSwitches {
  cores : gmap Z string;
  aggs : gmap Z string;
  edges : gmap Z string
}.

(** Lines 66-75: one pass of the switch loop. *)
Definition switch_step (sw : Switches) (i : Z) : TopoM Switches :=
  sw ← (if bool_decide (i ≤ 4)%Z then
          core ← addSwitch ("s" +:+ str i +:+ "_core" +:+ str i) CPU_PORT;
          mret (mkSwitches (<[i := core]> (cores sw)) (aggs sw) (edges sw))
        else mret sw);
  sw ← (if bool_decide (4 < i ∧ i ≤ 12)%Z then
          agg ← addSwitch ("s" +:+ str i +:+ "_agg" +:+ str (i - 4)) CPU_PORT;
          mret (mkSwitches (cores sw) (<[i - 4 := agg]> (aggs sw)) (edges sw))
        else mret sw);
  if bool_decide (12 < i)%Z then
    edge ← addSwitch ("s" +:+ str i +:+ "_edge" +:+ str (i - 12)) CPU_PORT;
    mret (mkSwitches (cores sw) (aggs sw) (<[i - 12 := edge]> (edges sw)))
  else mret sw.

Definition add_switches : TopoM Switches :=
  for_in (range 1 21) switch_step (mkSwitches ∅ ∅ ∅).

(** The base class constructor [Topo.__init__(self, *args, **kwargs)] belongs
    to Mininet, not to the script.  It starts the graph empty and hands its
    arguments to [build], which does nothing in [Topo]; no positional
    argument is examined.  Only positional integer arguments, such as a size,
    are modelled; keyword arguments are left out. *)
Definition Topo_init (args : list Z) : TopoM unit := λ _, inr (tt, empty_topo).

(** What [__init__] leaves behind besides the graph: the three dictionaries
    and the host variables [h1a] ... [h4d]. *)
Record Locals : Type := mkLocals {
  switches : Switches;
  host_vars : list string
}.

(** [FatTreeTopo.__init__(self, *args, **kwargs)], lines 59-197. *)
Definition FatTreeTopo_init (args : list Z) : TopoM Locals :=
  Topo_init args;;
  (* switches *)
  sw ← add_switches;
  let cores := cores sw in
  let aggs := aggs sw in
  let edges := edges sw in
  (* hosts *)
  (* pod 1 *)
  h1a ← addHost "h1a" "00:00:00:00:00:1A"
                 "2001:1:1::a/64" "2001:1:A::ff";
  h1b ← addHost "h1b" "00:00:00:00:00:1B"
                 "2001:1:1::b/64" "2001:1:B::ff";
  h1c ← addHost "h1c" "00:00:00:00:00:1C"
                 "2001:1:1::c/64" "2001:1:C::ff";
  h1d ← addHost "h1d" "00:00:00:00:00:1D"
                 "2001:1:1::d/64" "2001:1:D::ff";
  (* pod 2 *)
  h2a ← addHost "h2a" "00:00:00:00:00:2A"
                 "2002:1:1::a/64" "2002:1:A::ff";
  h2b ← addHost "h2b" "00:00:00:00:00:2B"
                 "2002:1:1::b/64" "2002:1:B::ff";
  h2c ← addHost "h2c" "00:00:00:00:00:2C"
                 "2002:1:1::c/64" "2002:1:C::ff";
  h2d ← addHost "h2d" "00:00:00:00:00:2D"
                 "2002:1:1::d/64" "2002:1:D::ff";
  (* pod 3 *)
  h3a ← addHost "h3a" "00:00:00:00:00:3A"
                 "2003:1:1::a/64" "2003:1:A::ff";
  h3b ← addHost "h3b" "00:00:00:00:00:3B"
                 "2003:1:1::b/64" "2003:1:B::ff";
  h3c ← addHost "h3c" "00:00:00:00:00:3C"
                 "2003:1:1::c/64" "2003:1:C::ff";
  h3d ← addHost "h3d" "00:00:00:00:00:3D"
                 "2003:1:1::d/64" "2003:1:D::ff";
  (* pod 4 *)
  h4a ← addHost "h4a" "00:00:00:00:00:4A"
                 "2004:1:1::a/64" "2004:1:A::ff";
  h4b ← addHost "h4b" "00:00:00:00:00:4B"
                 "2004:1:1::b/64" "2004:1:B::ff";
  h4c ← addHost "h4c" "00:00:00:00:00:4C"
                 "2004:1:1::c/64" "2004:1:C::ff";
  h4d ← addHost "h4d" "00:00:00:00:00:4D"
                 "2004:1:1::d/64" "2004:1:D::ff";
  (* Links *)
  (* core1 *)
  addLink2 cores 1 aggs 1;;
  addLink2 cores 1 aggs 3;;
  addLink2 cores 1 aggs 5;;
  addLink2 cores 1 aggs 7;;
  (* core2 *)
  addLink2 cores 2 aggs 1;;
  addLink2 cores 2 aggs 3;;
  addLink2 cores 2 aggs 5;;
  addLink2 cores 2 aggs 7;;
  (* core3 *)
  addLink2 cores 3 aggs 2;;
  addLink2 cores 3 aggs 4;;
  addLink2 cores 3 aggs 6;;
  addLink2 cores 3 aggs 8;;
  (* core4 *)
  addLink2 cores 4 aggs 2;;
  addLink2 cores 4 aggs 4;;
  addLink2 cores 4 aggs 6;;
  addLink2 cores 4 aggs 8;;
  (* agg1 *)
  addLink2 aggs 1 edges 1;;
  addLink2 aggs 1 edges 2;;
  (* agg2 *)
  addLink2 aggs 2 edges 1;;
  addLink2 aggs 2 edges 2;;
  (* agg3 *)
  addLink2 aggs 3 edges 3;;
  addLink2 aggs 3 edges 4;;
  (* agg4 *)
  addLink2 aggs 4 edges 3;;
  addLink2 aggs 4 edges 4;;
  (* agg5 *)
  addLink2 aggs 5 edges 5;;
  addLink2 aggs 5 edges 6;;
  (* agg6 *)
  addLink2 aggs 6 edges 5;;
  addLink2 aggs 6 edges 6;;
  (* agg7 *)
  addLink2 aggs 7 edges 7;;
  addLink2 aggs 7 edges 8;;
  (* agg8 *)
  addLink2 aggs 8 edges 7;;
  addLink2 aggs 8 edges 8;;
  (* edge1 *)
  addLink1 edges 1 h1a;;
  addLink1 edges 1 h1b;;
  (* edge2 *)
  addLink1 edges 2 h1c;;
  addLink1 edges 2 h1d;;
  (* edge3 *)
  addLink1 edges 3 h2a;;
  addLink1 edges 3 h2b;;
  (* edge4 *)
  addLink1 edges 4 h2c;;
  addLink1 edges 4 h2d;;
  (* edge5 *)
  addLink1 edges 5 h3a;;
  addLink1 edges 5 h3b;;
  (* edge6 *)
  addLink1 edges 6 h3c;;
  addLink1 edges 6 h3d;;
  (* edge7 *)
  addLink1 edges 7 h4a;;
  addLink1 edges 7 h4b;;
  (* edge8 *)
  addLink1 edges 8 h4c;;
  addLink1 edges 8 h4d;;
  mret (mkLocals sw
    [h1a; h1b; h1c; h1d; h2a; h2b; h2c; h2d;
     h3a; h3b; h3c; h3d; h4a; h4b; h4c; h4d]).

(** Running the constructor on a fresh object. *)
Definition FatTreeTopo (args : list Z) : exn + (Locals * Topo) :=
  FatTreeTopo_init args empty_topo.

(** ** Observations on a generated topology *)

(** The topology and the local variables a successful run leaves. *)
Definition topo_of (r : exn + (Locals * Topo)) : Topo :=
  match r with inr (_, t) => t | inl _ => empty_topo end.

Definition locals_of (r : exn + (Locals * Topo)) : Locals :=
  match r with inr (l, _) => l | inl _ => mkLocals (mkSwitches ∅ ∅ ∅) [] end.

Definition fattree : Topo := topo_of (FatTreeTopo []).
Definition fattree_switches : Switches := switches (locals_of (FatTreeTopo [])).

(** The switches a dictionary holds. *)
Definition values (d : gmap Z string) : list string := (map_to_list d).*2.

Definition held_by (d : gmap Z string) (n : string) : bool :=
  bool_decide (n ∈ values d).

(** A host of the graph: name, MAC, IPv6 address with prefix length, gateway. *)
Record Host : Type := mkHost {
  h_name : string;
  h_mac : string;
  h_ipv6 : string;
  h_gw : string
}.

#[export] Instance Host_eq_dec : EqDecision Host.
Proof. solve_decision. Defined.

Definition hosts (t : Topo) : list Host :=
  omap (λ n, match n.2 with
             | HostOpts m a g => Some (mkHost n.1 m a g)
             | SwitchOpts _ => None
             end) (nodes t).

Definition is_host (t : Topo) (n : string) : bool :=
  bool_decide (n ∈ h_name <$> hosts t).

(** The control-plane ports the switches were created with. *)
Definition cpuports (t : Topo) : list (string * Z) :=
  omap (λ n, match n.2 with
             | SwitchOpts p => Some (n.1, p)
             | HostOpts _ _ _ => None
             end) (nodes t).

(** Links with one end in [A] and the other in [B]. *)
Definition joins (A B : string → bool) (l : string * string) : bool :=
  (A l.1 && B l.2) || (B l.1 && A l.2).

Definition links_between (t : Topo) (A B : string → bool) : list (string * string) :=
  filter (λ l, joins A B l = true) (links t).

(** [x] and [y] are the two ends of some link. *)
Definition linked (t : Topo) (x y : string) : Prop :=
  (x, y) ∈ links t ∨ (y, x) ∈ links t.

#[export] Instance linked_dec t x y : Decision (linked t x y).
Proof. unfold linked. apply _. Defined.

(** The other ends of the links at [n], one entry per link. *)
Definition neighbours (t : Topo) (n : string) : list string :=
  omap (λ l, if decide (l.1 = n) then Some l.2
             else if decide (l.2 = n) then Some l.1 else None) (links t).

(** The distinct nodes of kind [P] that [n] is linked to. *)
Definition linked_to (t : Topo) (n : string) (P : string → bool) : list string :=
  filter (λ m, P m = true) (remove_dups (neighbours t n)).

(** ** Strings *)

(** [s.split(sep)] for a separator of one character. *)
Fixpoint split (sep : ascii) (s : string) : list string :=
  match s with
  | "" => [""]
  | String c s' =>
      if decide (c = sep) then "" :: split sep s'
      else match split sep s' with
           | w :: ws => String c w :: ws
           | [] => [String c ""]
           end
  end.

(** [l[i]] on a list. *)
Definition item {A} (l : list A) (i : nat) : exn + A :=
  match l !! i with
  | Some x => inr x
  | None => inl IndexError
  end.

(** The part of [s] before the first occurrence of [c], all of [s] when
    there is none: what the description of [updateIP] asks for. *)
Fixpoint before_first (c : ascii) (s : string) : string :=
  match s with
  | "" => ""
  | String d s' => if decide (d = c) then "" else String d (before_first c s')
  end.

Definition contains (c : ascii) (s : string) : Prop := c ∈ list_ascii_of_string s.

(** ** [IPv6Host] *)

(** What the script touches of a host: the name of its default interface
    ([str(self.defaultIntf())]), the commands sent to its shell through
    [self.cmd], oldest first, and the [updateIP] attribute of the default
    interface. *)
Record HostNode : Type := mkHostNode {
  intf : string;
  shell : list string;
  updateIP : option (unit → exn + string)
}.

Definition HostM (A : Type) : Type := HostNode → A * HostNode.

#[export] Instance HostM_ret : MRet HostM := λ A x h, (x, h).
#[export] Instance HostM_bind : MBind HostM := λ A B f m h,
  match m h with
  | (a, h') => f a h'
  end.

Definition defaultIntf : HostM string := λ h, (intf h, h).

Definition cmd (c : string) : HostM unit := λ h,
  (tt, mkHostNode (intf h) (shell h ++ [c]) (updateIP h)).

Definition set_updateIP (f : unit → exn + string) : HostM unit := λ h,
  (tt, mkHostNode (intf h) (shell h) (Some f)).

(** Python truth value of the [ipv6_gw] argument: [None] and the empty
    string are false. *)
Definition truthy (o : option string) : bool :=
  match o with
  | Some s => negb (String.eqb s "")
  | None => false
  end.

Section IPv6Host.

(** [Host.config] of Mininet, called first through [super]. *)
Variable Host_config : HostM unit.

(** [IPv6Host.config(self, ipv6, ipv6_gw=None, **params)], lines 35-50. *)
Definition config (ipv6 : string) (ipv6_gw : option string) : HostM unit :=
  Host_config;;
  dev ← defaultIntf; cmd ("ip -4 addr flush dev " +:+ dev);;
  dev ← defaultIntf; cmd ("ip -6 addr flush dev " +:+ dev);;
  dev ← defaultIntf; cmd ("ip -6 addr add " +:+ ipv6 +:+ " dev " +:+ dev);;
  (if truthy ipv6_gw
   then cmd ("ip -6 route add default via " +:+ default "None" ipv6_gw)
   else mret tt);;
  (* Disable offload *)
  for_in ["rx"; "tx"; "sg"] (λ _ attr,
    dev ← defaultIntf;
    cmd ("/sbin/ethtool --offload " +:+ dev +:+ " " +:+ attr +:+ " off")) tt;;
  set_updateIP (λ _, item (split "/" ipv6) 0).

(** The commands [config] itself sent, after those of [Host.config]. *)
Definition config_cmds (ipv6 : string) (ipv6_gw : option string)
    (h : HostNode) : list string :=
  drop (List.length (shell (Host_config h).2)) (shell (config ipv6 ipv6_gw h).2).

End IPv6Host.

(** The steps of host configuration. *)
Inductive step : Type :=
  | FlushIPv4
  | FlushIPv6
  | AssignAddress
  | InstallRoute
  | DisableOffload.

#[export] Instance step_eq_dec : EqDecision step.
Proof. solve_decision. Defined.

(** [s.startswith(p)]. *)
Fixpoint startswith (p s : string) : bool :=
  match p with
  | "" => true
  | String a p' =>
      match s with
      | "" => false
      | String b s' => if Ascii.eqb a b then startswith p' s' else false
      end
  end.

(** The step a shell command performs, by the program and verb it starts
    with. *)
Definition step_of (c : string) : option step :=
  if startswith "ip -4 addr flush " c then Some FlushIPv4
  else if startswith "ip -6 addr flush " c then Some FlushIPv6
  else if startswith "ip -6 addr add " c then Some AssignAddress
  else if startswith "ip -6 route add default via " c then Some InstallRoute
  else if startswith "/sbin/ethtool --offload " c then Some DisableOffload
  else None.

(** ** IPv6 addresses as 128-bit numbers *)

Definition hex_digit (c : ascii) : option Z :=
  let n := Z.of_N (N_of_ascii c) in
  if bool_decide (48 ≤ n ≤ 57)%Z then Some (n - 48)
  else if bool_decide (97 ≤ n ≤ 102)%Z then Some (n - 87)
  else if bool_decide (65 ≤ n ≤ 70)%Z then Some (n - 55)
  else None.

Fixpoint hex_value (acc : Z) (s : string) : option Z :=
  match s with
  | "" => Some acc
  | String c s' => d ← hex_digit c; hex_value (Z.lor (Z.shiftl acc 4) d) s'
  end.

(** One group of an address: one to four hexadecimal digits. *)
Definition parse_group (s : string) : option Z :=
  if bool_decide (1 ≤ String.length s ≤ 4)%nat then hex_value 0 s else None.

Definition parse_groups (s : string) : option (list Z) :=
  if String.eqb s "" then Some [] else mapM parse_group (split ":" s).

(** The text before and after the first [::]. *)
Fixpoint split_double_colon (s : string) : option (string * string) :=
  match s with
  | "" => None
  | String c s' =>
      match s' with
      | String c' r =>
          if bool_decide (c = ":"%char ∧ c' = ":"%char) then Some ("", r)
          else p ← split_double_colon s'; Some (String c p.1, p.2)
      | "" => None
      end
  end.

(** The eight 16-bit groups of an address in the text form of RFC 4291
    (hexadecimal groups, at most one [::]; no embedded IPv4 part). *)
Definition parse_ipv6 (s : string) : option (list Z) :=
  match split_double_colon s with
  | Some (l, r) =>
      gl ← parse_groups l; gr ← parse_groups r;
      if bool_decide (List.length gl + List.length gr ≤ 7)%nat
      then Some (gl ++ replicate (8 - (List.length gl + List.length gr)) 0%Z ++ gr)%list
      else None
  | None =>
      g ← parse_groups s;
      if bool_decide (List.length g = 8%nat) then Some g else None
  end.

Definition ipv6_value (g : list Z) : Z :=
  foldl (λ acc x, Z.lor (Z.shiftl acc 16) x) 0%Z g.

(** The address in [addr] or [addr/len]. *)
Definition address_of (s : string) : option Z :=
  ipv6_value <$> parse_ipv6 (before_first "/" s).

(** The first [n] bits of a 128-bit address. *)
Definition prefix_bits (n : Z) (a : Z) : Z := Z.shiftr a (128 - n).

(** Host and gateway lie in the same /n. *)
Definition same_prefix (n : Z) (host gw : string) : Prop :=
  ∃ a g, address_of host = Some a ∧ address_of gw = Some g ∧
         prefix_bits n a = prefix_bits n g.

#[export] Instance same_prefix_dec n host gw : Decision (same_prefix n host gw).
Proof.
  unfold same_prefix.
  destruct (address_of host) as [a |];
    [| right; intros (? & ? & ? & ? & ?); discriminate].
  destruct (address_of gw) as [g |];
    [| right; intros (? & ? & ? & ? & ?); discriminate].
  destruct (decide (prefix_bits n a = prefix_bits n g)) as [Heq | Hne].
  - left. exists a, g. done.
  - right. intros (? & ? & [= <-] & [= <-] & ?). done.
Defined.

(** ** The naming scheme of the hosts *)

Definition upper (c : ascii) : ascii :=
  let n := N_of_ascii c in
  if bool_decide (97 ≤ n ≤ 122)%N then ascii_of_N (n - 32) else c.

Definition chr (c : ascii) : string := String c "".

(** Host [l] of pod [p] under the scheme [h{p}{l}]. *)
Definition scheme (p : Z) (l : ascii) : Host :=
  mkHost ("h" +:+ str p +:+ chr l)
         ("00:00:00:00:00:" +:+ str p +:+ chr (upper l))
         ("200" +:+ str p +:+ ":1:1::" +:+ chr l +:+ "/64")
         ("200" +:+ str p +:+ ":1:" +:+ chr (upper l) +:+ "::ff").

Definition letters : list ascii := ["a"; "b"; "c"; "d"]%char.

(** ** Pods and core groups *)

(** Pod [p] owns aggregation switches [2p-1] and [2p], at in-pod positions
    1 and 2, and edge switches [2p-1] and [2p]. *)
Definition agg_at (p g : Z) : Z := 2 * (p - 1) + g.
Definition pod_of (a : Z) : Z := (a - 1) / 2 + 1.
Definition position_of (a : Z) : Z := (a - 1) mod 2 + 1.

(** Group [g] holds the consecutive cores [2g-1] and [2g]. *)
Definition core_group (c : Z) : Z := (c - 1) / 2 + 1.

(** ** Tiers, sizes and degrees *)

Inductive tier : Type := Core | Aggregation | Edge.

(** The tier of a switch is the dictionary that holds it. *)
Definition tier_of (sw : Switches) (n : string) : option tier :=
  if held_by (cores sw) n then Some Core
  else if held_by (aggs sw) n then Some Aggregation
  else if held_by (edges sw) n then Some Edge
  else None.

(** The switches of the three dictionaries, each with its tier. *)
Definition tiered (sw : Switches) : list (string * tier) :=
  ((λ n, (n, Core)) <$> values (cores sw))
  ++ ((λ n, (n, Aggregation)) <$> values (aggs sw))
  ++ ((λ n, (n, Edge)) <$> values (edges sw)).

(** How many switches, hosts and links of each kind a run produced. *)
Record Census : Type := mkCensus {
  n_core : nat;
  n_agg : nat;
  n_edge : nat;
  n_host : nat;
  n_agg_core : nat;
  n_agg_edge : nat;
  n_edge_host : nat
}.

Definition census (sw : Switches) (t : Topo) : Census :=
  mkCensus (size (cores sw)) (size (aggs sw)) (size (edges sw))
           (List.length (hosts t))
           (List.length (links_between t (held_by (aggs sw)) (held_by (cores sw))))
           (List.length (links_between t (held_by (aggs sw)) (held_by (edges sw))))
           (List.length (links_between t (held_by (edges sw)) (is_host t))).

(** The sizes of a topology of size [k] as the specification gives them. *)
Definition census_of_size (k : nat) : Census :=
  mkCensus k k k (k * (k / 2)) (k * k) (k * k) (k * k / 2).

(** The number of distinct hosts, edge, aggregation and core switches a
    node is linked to. *)
Record Degree : Type := mkDegree {
  to_hosts : nat;
  to_edges : nat;
  to_aggs : nat;
  to_cores : nat
}.

#[export] Instance Degree_eq_dec : EqDecision Degree.
Proof. solve_decision. Defined.

Definition degree (sw : Switches) (t : Topo) (n : string) : Degree :=
  mkDegree (List.length (linked_to t n (is_host t)))
           (List.length (linked_to t n (held_by (edges sw))))
           (List.length (linked_to t n (held_by (aggs sw))))
           (List.length (linked_to t n (held_by (cores sw)))).

(** The degrees of a switch of each tier at size [k]. *)
Definition tier_degree (k : nat) (tr : tier) : Degree :=
  match tr with
  | Edge => mkDegree (k / 2) 0 (k / 2) 0
  | Aggregation => mkDegree 0 (k / 2) 0 (k / 2)
  | Core => mkDegree 0 0 k 0
  end.

(** The specification's rule for a bad size: an odd, zero or negative [k]
    is answered with [InvalidSize]. *)
Definition refuses_size (k : Z) : Prop :=
  Z.odd k = true ∨ (k ≤ 0)%Z → FatTreeTopo [k] = inl InvalidSize.

#[export] Instance tier_eq_dec : EqDecision tier.
Proof. solve_decision. Defined.

(** ** [getControllerIP] *)

Definition LF : ascii := "010"%char.
Definition CR : ascii := "013"%char.

(** [s.splitlines()] on a Python 2 [str] (the script is Python 2: it uses the
    [print] statement): lines end at a line feed, at a carriage return or at
    a carriage return followed by a line feed; the line ends are dropped and
    no empty line is reported after the last of them. *)
Fixpoint splitlines (s : string) : list string :=
  match s with
  | "" => []
  | String c s' =>
      if bool_decide (c = LF) then "" :: splitlines s'
      else if bool_decide (c = CR) then
        match s' with
        | String c' s'' =>
            if bool_decide (c' = LF) then "" :: splitlines s''
            else "" :: splitlines s'
        | "" => [""]
        end
      else match splitlines s' with
           | w :: ws => String c w :: ws
           | [] => [String c ""]
           end
  end.

(** [getControllerIP()], lines 200-204, as a function of [res], the text
    the [docker inspect] command printed: the loop returns at its first
    pass, and a loop that never runs falls through to [None]. *)
Definition getControllerIP (res : string) : option string :=
  match splitlines res with
  | line :: _ => Some line
  | [] => None
  end.

(** ** More observations *)

(** [sep.join(ws)] *)
Fixpoint join (sep : string) (ws : list string) : string :=
  match ws with
  | [] => ""
  | [w] => w
  | w :: ws' => w +:+ sep +:+ join sep ws'
  end.

(** The nodes at most [k] links away from [x]. *)
Fixpoint reach (t : Topo) (k : nat) (x : string) : list string :=
  match k with
  | O => [x]
  | S k' =>
      let r := reach t k' x in
      remove_dups (r ++ (r ≫= neighbours t))
  end.

(** The graph after node [n] has failed: [n] and its links are gone. *)
Definition without (t : Topo) (n : string) : Topo :=
  mkTopo (filter (λ x, x.1 ≠ n) (nodes t))
         (filter (λ l, l.1 ≠ n ∧ l.2 ≠ n) (links t)).

(** A MAC address in the text form of six two-digit hexadecimal octets, as
    a 48-bit number. *)
Definition parse_octet (s : string) : option Z :=
  if bool_decide (String.length s = 2%nat) then hex_value 0 s else None.

Definition parse_mac (s : string) : option Z :=
  os ← mapM parse_octet (split ":" s);
  if bool_decide (List.length os = 6%nat)
  then Some (foldl (λ acc x, Z.lor (Z.shiftl acc 8) x) 0%Z os)
  else None.

(** The pod of a host is the digit of its name. *)
Definition host_pod (h : Host) : option ascii := String.get 1 (h_name h).

(** No element of [l] is in [r]. *)
Definition apart (l r : list string) : Prop := Forall (λ n, n ∉ r) l.

#[export] Instance apart_dec : RelDecision apart :=
  λ l r, decide (Forall (λ n, n ∉ r) l).

(** How far apart two different hosts sit: 2 links under one edge switch,
    4 in one pod, 6 across pods. *)
Definition host_distance (t : Topo) (h1 h2 : Host) : nat :=
  if decide (neighbours t (h_name h1) = neighbours t (h_name h2)) then 2
  else if decide (host_pod h1 = host_pod h2) then 4
  else 6.

(** The names of the hosts other than [h1] at distance [d] from it. *)
Definition hosts_at (t : Topo) (h1 : Host) (d : nat) : list string :=
  h_name <$> filter (λ h2, h2 ≠ h1 ∧ host_distance t h1 h2 = d) (hosts t).

(** * Properties *)

(** Solve a decidable closed goal by evaluation. *)
Ltac by_eval :=
  lazymatch goal with
  | |- ?P => apply (@bool_decide_eq_true_1 P _); vm_compute; reflexivity
  end.

(** ** Every run builds the same graph *)

Lemma FatTreeTopo_args args : FatTreeTopo args = FatTreeTopo [].
Proof. vm_compute. reflexivity. Qed.

Lemma FatTreeTopo_returns args :
  FatTreeTopo args = inr (mkLocals fattree_switches (h_name <$> hosts fattree), fattree).
Proof. vm_compute. reflexivity. Qed.

(** No name is added twice, so the list of nodes is also the dictionary of
    nodes that Mininet keeps. *)
Lemma fattree_nodes_NoDup : NoDup (nodes fattree).*1.
Proof. by_eval. Qed.

Lemma fattree_census :
  census fattree_switches fattree = mkCensus 4 8 8 16 16 16 16.
Proof. vm_compute. reflexivity. Qed.

(** ** Sizes *)

(** C1, as stated, fails: at k = 4 the run does not have the sizes k, k, k,
    k(k/2), k², k², k²/2 -- it has 8 aggregation switches, not 4. *)
Lemma fattree_census_not_of_size_4 :
  census fattree_switches fattree ≠ census_of_size 4
  ∧ n_agg (census fattree_switches fattree) = 8%nat
  ∧ n_agg (census_of_size 4) = 4%nat.
Proof. rewrite fattree_census. split; [discriminate | split; reflexivity]. Qed.

(** C1, amended: every run returns 4 core, 8 aggregation and 8 edge
    switches and 16 hosts, joined by 16 aggregation-core, 16
    aggregation-edge and 16 edge-host links; these 36 nodes and 48 links are
    the whole graph. *)
Theorem fattree_sizes args :
  ∃ l t, FatTreeTopo args = inr (l, t)
    ∧ census (switches l) t = mkCensus 4 8 8 16 16 16 16
    ∧ List.length (nodes t) = (4 + 8 + 8 + 16)%nat
    ∧ List.length (links t) = (16 + 16 + 16)%nat.
Proof.
  exists (mkLocals fattree_switches (h_name <$> hosts fattree)), fattree.
  split; [apply FatTreeTopo_returns |].
  split; [exact fattree_census |].
  split; vm_compute; reflexivity.
Qed.

(** ** Sizes that the specification rejects *)

(** C7, as stated, fails: asked for the odd size 3 the constructor does not
    answer [InvalidSize]. *)
Lemma size_3_not_refused : ¬ refuses_size 3.
Proof.
  intros Hc. specialize (Hc (or_introl eq_refl)).
  rewrite FatTreeTopo_returns in Hc. discriminate Hc.
Qed.

(** C7, amended: the constructor has no size parameter and checks no size.
    Requested with an odd, a negative or a zero size [k] -- or with any
    other integer [k] -- it does not fail with [InvalidSize]: it returns
    the same complete k=4 graph, of 36 nodes and 48 links, as with no
    argument. *)
Theorem size_never_refused k :
  FatTreeTopo [k] = FatTreeTopo []
  ∧ (∃ l, FatTreeTopo [k] = inr (l, fattree))
  ∧ FatTreeTopo [k] ≠ inl InvalidSize
  ∧ List.length (nodes fattree) = 36%nat
  ∧ List.length (links fattree) = 48%nat.
Proof.
  split; [apply FatTreeTopo_args |].
  split; [eexists; apply FatTreeTopo_returns |].
  split; [rewrite FatTreeTopo_returns; discriminate |].
  split; vm_compute; reflexivity.
Qed.

(** ** The control-plane port *)

Lemma tier_of_elem sw n :
  is_Some (tier_of sw n) ↔
  n ∈ values (cores sw) ∨ n ∈ values (aggs sw) ∨ n ∈ values (edges sw).
Proof.
  unfold tier_of, held_by. repeat case_bool_decide; split;
    (try by eauto); (try by intros [? [=]]); tauto.
Qed.

Lemma fattree_switch_names :
  values (cores fattree_switches) ++ values (aggs fattree_switches)
    ++ values (edges fattree_switches) ≡ₚ (cpuports fattree).*1.
Proof. by_eval. Qed.

Lemma fattree_cpuports : Forall (λ np, np.2 = CPU_PORT) (cpuports fattree).
Proof. by_eval. Qed.

Lemma fattree_switch_elem n :
  n ∈ values (cores fattree_switches) ∨ n ∈ values (aggs fattree_switches)
    ∨ n ∈ values (edges fattree_switches) ↔ n ∈ (cpuports fattree).*1.
Proof.
  rewrite <- (elem_of_Permutation_proper _ _ _ fattree_switch_names).
  rewrite !elem_of_app. tauto.
Qed.

Lemma cpuports_elem t n p : (n, SwitchOpts p) ∈ nodes t ↔ (n, p) ∈ cpuports t.
Proof.
  unfold cpuports. rewrite list_elem_of_omap. split.
  - intros Hin. exists (n, SwitchOpts p). done.
  - intros [[m o] [Hin Ho]]. simpl in Ho. destruct o; simplify_eq. done.
Qed.

(** C8: every run creates each of its switches -- the core, the aggregation
    and the edge switches held by the three dictionaries -- with control-plane
    port [CPU_PORT], which is 255, and creates no other switch. *)
Theorem switches_cpuport args :
  ∃ l t, FatTreeTopo args = inr (l, t)
    ∧ CPU_PORT = 255%Z
    ∧ (∀ n, is_Some (tier_of (switches l) n) ↔ (n, SwitchOpts 255) ∈ nodes t)
    ∧ (∀ n p, (n, SwitchOpts p) ∈ nodes t → p = 255%Z).
Proof.
  exists (mkLocals fattree_switches (h_name <$> hosts fattree)), fattree.
  split; [apply FatTreeTopo_returns |].
  change (switches (mkLocals fattree_switches (h_name <$> hosts fattree)))
    with fattree_switches.
  split; [reflexivity |].
  assert (Hall : ∀ n p, (n, p) ∈ cpuports fattree → p = 255%Z).
  { intros n p Hin. pose proof fattree_cpuports as HF.
    rewrite Forall_forall in HF. apply (HF (n, p) Hin). }
  split.
  - intros n. rewrite tier_of_elem, cpuports_elem, fattree_switch_elem.
    rewrite list_elem_of_fmap. split.
    + intros [[m p] [-> Hin]]. cbn [fst]. by rewrite <- (Hall _ _ Hin).
    + intros Hin. by exists (n, 255%Z).
  - intros n p Hin. apply (Hall n p). by apply cpuports_elem.
Qed.

(** ** Degrees *)

Lemma tier_of_tiered sw n tr : tier_of sw n = Some tr → (n, tr) ∈ tiered sw.
Proof.
  unfold tier_of, held_by, tiered. rewrite !elem_of_app, !list_elem_of_fmap.
  repeat case_bool_decide; intros [= <-]; eauto 6.
Qed.

Lemma fattree_degrees :
  Forall (λ ntr, degree fattree_switches fattree ntr.1 = tier_degree 4 ntr.2
                 ∧ NoDup (neighbours fattree ntr.1))
         (tiered fattree_switches).
Proof. by_eval. Qed.

(** C2: in the generated topology every edge switch is linked to exactly 2
    hosts and 2 aggregation switches, every aggregation switch to exactly 2
    edge switches and 2 core switches, and every core switch to exactly 4
    aggregation switches; a switch has no other neighbour and no two links
    to the same one. *)
Theorem switch_degrees n tr :
  tier_of fattree_switches n = Some tr →
  degree fattree_switches fattree n = tier_degree 4 tr
  ∧ tier_degree 4 Edge = mkDegree 2 0 2 0
  ∧ tier_degree 4 Aggregation = mkDegree 0 2 0 2
  ∧ tier_degree 4 Core = mkDegree 0 0 4 0
  ∧ NoDup (neighbours fattree n).
Proof.
  intros Htier%tier_of_tiered.
  pose proof fattree_degrees as HF. rewrite Forall_forall in HF.
  destruct (HF _ Htier) as [Hdeg Hnd]. cbn [fst snd] in Hdeg, Hnd.
  repeat split; try reflexivity; assumption.
Qed.

Lemma switch_degrees_witness :
  tier_of fattree_switches "s13_edge1" = Some Edge
  ∧ degree fattree_switches fattree "s13_edge1" = mkDegree 2 0 2 0.
Proof.
  assert (Ht : tier_of fattree_switches "s13_edge1" = Some Edge)
    by (vm_compute; reflexivity).
  split; [exact Ht |].
  exact (proj1 (switch_degrees "s13_edge1" Edge Ht)).
Defined.

(** ** Wiring *)

Lemma Forall_map_to_list (P : Z → string → Prop) (d : gmap Z string) :
  Forall (λ kv, P kv.1 kv.2) (map_to_list d) →
  ∀ k v, d !! k = Some v → P k v.
Proof.
  intros HF k v Hkv. rewrite Forall_forall in HF.
  apply (HF (k, v)). by apply elem_of_map_to_list.
Qed.

(** Pods as the aggregation-edge mesh draws them: aggregation switch [a]
    and edge switch [e] are linked exactly when they are of the same pod. *)
Lemma pod_mesh a an e en :
  aggs fattree_switches !! a = Some an →
  edges fattree_switches !! e = Some en →
  linked fattree an en ↔ pod_of a = pod_of e.
Proof.
  revert a an e en.
  assert (HF : Forall (λ kv, Forall (λ kv', linked fattree kv.2 kv'.2
                                            ↔ pod_of kv.1 = pod_of kv'.1)
                               (map_to_list (edges fattree_switches)))
                      (map_to_list (aggs fattree_switches))) by by_eval.
  intros a an e en Ha He.
  pose proof (Forall_map_to_list
    (λ a an, Forall (λ kv', linked fattree an kv'.2 ↔ pod_of a = pod_of kv'.1)
                    (map_to_list (edges fattree_switches)))
    _ HF a an Ha) as HF'. cbn beta in HF'.
  exact (Forall_map_to_list (λ e en, linked fattree an en ↔ pod_of a = pod_of e)
           _ HF' e en He).
Qed.

Lemma fattree_core_wiring :
  Forall (λ ccn,
      (1 ≤ core_group ccn.1 ≤ 2)%Z
      ∧ core_group ccn.1 = (if bool_decide (ccn.1 ≤ 2)%Z then 1 else 2)%Z
      ∧ neighbours fattree ccn.2
        = omap (λ p, aggs fattree_switches !! agg_at p (core_group ccn.1))
               (range 1 5)
      ∧ (λ p, agg_at p (core_group ccn.1)) <$> range 1 5
        = (if bool_decide (ccn.1 ≤ 2)%Z then [1; 3; 5; 7] else [2; 4; 6; 8])%Z
      ∧ List.length (neighbours fattree ccn.2) = 4%nat
      ∧ Forall (λ aan, linked fattree ccn.2 aan.2
                       ↔ position_of aan.1 = core_group ccn.1)
               (map_to_list (aggs fattree_switches)))
    (map_to_list (cores fattree_switches)).
Proof. by_eval. Qed.

(** C3: the core-to-aggregation wiring.  Core [c] belongs to group
    [core_group c] (cores 1, 2 form group 1, cores 3, 4 group 2).  Its links
    go, one per pod [p] = 1..4, to the aggregation switch at in-pod position
    [core_group c] of pod [p], and to nothing else: an aggregation switch is
    linked to core [c] exactly when its in-pod position is the group of [c].
    So cores 1 and 2 reach aggregation switches 1, 3, 5, 7 and cores 3 and 4
    reach 2, 4, 6, 8. *)
Theorem core_wiring c cn :
  cores fattree_switches !! c = Some cn →
  (1 ≤ core_group c ≤ 2)%Z
  ∧ core_group c = (if bool_decide (c ≤ 2)%Z then 1 else 2)%Z
  ∧ neighbours fattree cn
    = omap (λ p, aggs fattree_switches !! agg_at p (core_group c)) (range 1 5)
  ∧ (λ p, agg_at p (core_group c)) <$> range 1 5
    = (if bool_decide (c ≤ 2)%Z then [1; 3; 5; 7] else [2; 4; 6; 8])%Z
  ∧ List.length (neighbours fattree cn) = 4%nat
  ∧ (∀ a an, aggs fattree_switches !! a = Some an →
             linked fattree cn an ↔ position_of a = core_group c).
Proof.
  intros Hc.
  pose proof (Forall_map_to_list
    (λ c cn,
      (1 ≤ core_group c ≤ 2)%Z
      ∧ core_group c = (if bool_decide (c ≤ 2)%Z then 1 else 2)%Z
      ∧ neighbours fattree cn
        = omap (λ p, aggs fattree_switches !! agg_at p (core_group c))
               (range 1 5)
      ∧ (λ p, agg_at p (core_group c)) <$> range 1 5
        = (if bool_decide (c ≤ 2)%Z then [1; 3; 5; 7] else [2; 4; 6; 8])%Z
      ∧ List.length (neighbours fattree cn) = 4%nat
      ∧ Forall (λ aan, linked fattree cn aan.2
                       ↔ position_of aan.1 = core_group c)
               (map_to_list (aggs fattree_switches)))
    _ fattree_core_wiring c cn Hc) as HF.
  cbn beta in HF.
  destruct HF as (Hg & Hg' & Hn & Hidx & Hlen & Hall).
  repeat (split; [assumption |]).
  intros a an Ha.
  exact (Forall_map_to_list
           (λ a an, linked fattree cn an ↔ position_of a = core_group c)
           _ Hall a an Ha).
Qed.

Lemma core_wiring_witness :
  cores fattree_switches !! 1%Z = Some "s1_core1"
  ∧ neighbours fattree "s1_core1"
    = ["s5_agg1"; "s7_agg3"; "s9_agg5"; "s11_agg7"].
Proof.
  assert (Hc : cores fattree_switches !! 1%Z = Some "s1_core1")
    by (vm_compute; reflexivity).
  split; [exact Hc |].
  destruct (core_wiring 1 "s1_core1" Hc) as (_ & _ & Hn & _).
  rewrite Hn. vm_compute. reflexivity.
Defined.

(** ** Hosts and their addresses *)

Lemma fattree_hosts_scheme :
  hosts fattree = range 1 5 ≫= (λ p, scheme p <$> letters).
Proof. vm_compute. reflexivity. Qed.

Lemma hosts_of_run args : hosts (topo_of (FatTreeTopo args)) = hosts fattree.
Proof. vm_compute. reflexivity. Qed.

(** C10: the generated hosts are exactly the hosts [scheme p l] for p in
    1..4 and l in a..d: the host named h{p}{l} has MAC 00:00:00:00:00:{p}{L},
    IPv6 address 200{p}:1:1::{l}/64 and gateway 200{p}:1:{L}::ff, with L the
    upper case of l. *)
Theorem hosts_follow_scheme h :
  h ∈ hosts fattree ↔
  ∃ p l, (1 ≤ p ≤ 4)%Z ∧ l ∈ letters
    ∧ h = mkHost ("h" +:+ str p +:+ chr l)
                 ("00:00:00:00:00:" +:+ str p +:+ chr (upper l))
                 ("200" +:+ str p +:+ ":1:1::" +:+ chr l +:+ "/64")
                 ("200" +:+ str p +:+ ":1:" +:+ chr (upper l) +:+ "::ff").
Proof.
  rewrite fattree_hosts_scheme, list_elem_of_bind. split.
  - intros (p & Hh & Hp). apply list_elem_of_fmap in Hh as (l & -> & Hl).
    exists p, l. unfold range in Hp. apply elem_of_seqZ in Hp.
    split; [lia |]. split; [exact Hl | reflexivity].
  - intros (p & l & Hp & Hl & ->). exists p. split.
    + apply list_elem_of_fmap. by exists l.
    + unfold range. apply elem_of_seqZ. lia.
Qed.

Lemma NoDup_fmap_eq {A B} (f : A → B) (l : list A) x y :
  NoDup (f <$> l) → x ∈ l → y ∈ l → f x = f y → x = y.
Proof.
  induction l as [| a l IH]; intros Hnd Hx Hy Hf.
  - by apply elem_of_nil in Hx.
  - rewrite fmap_cons in Hnd. apply NoDup_cons in Hnd as [Ha Hnd].
    apply elem_of_cons in Hx as [-> | Hx];
      apply elem_of_cons in Hy as [-> | Hy]; try done.
    + exfalso. apply Ha. rewrite Hf. by apply list_elem_of_fmap_2.
    + exfalso. apply Ha. rewrite <- Hf. by apply list_elem_of_fmap_2.
    + by apply IH.
Qed.

Lemma fattree_macs_NoDup : NoDup (h_mac <$> hosts fattree).
Proof. by_eval. Qed.

Lemma fattree_ipv6_NoDup : NoDup (h_ipv6 <$> hosts fattree).
Proof. by_eval. Qed.

Lemma fattree_host_names_NoDup : NoDup (h_name <$> hosts fattree).
Proof. by_eval. Qed.

(** C4: address allocation is injective and deterministic.  Two distinct
    generated hosts differ in their MAC address and in their IPv6 address;
    and, over any two runs, hosts of the same name (the same pod and letter)
    have the same MAC, IPv6 address and gateway. *)
Theorem host_addresses_injective args args' h1 h2 :
  h1 ∈ hosts (topo_of (FatTreeTopo args)) →
  h2 ∈ hosts (topo_of (FatTreeTopo args')) →
  (h1 ≠ h2 → h_mac h1 ≠ h_mac h2 ∧ h_ipv6 h1 ≠ h_ipv6 h2)
  ∧ (h_name h1 = h_name h2 → h1 = h2).
Proof.
  rewrite !hosts_of_run. intros H1 H2. split.
  - intros Hne. split; intros Heq; apply Hne.
    + exact (NoDup_fmap_eq h_mac _ _ _ fattree_macs_NoDup H1 H2 Heq).
    + exact (NoDup_fmap_eq h_ipv6 _ _ _ fattree_ipv6_NoDup H1 H2 Heq).
  - exact (NoDup_fmap_eq h_name _ _ _ fattree_host_names_NoDup H1 H2).
Qed.

Lemma host_addresses_injective_witness :
  h_mac (scheme 1 "a") ≠ h_mac (scheme 2 "a")
  ∧ h_ipv6 (scheme 1 "a") ≠ h_ipv6 (scheme 2 "a").
Proof.
  assert (H1 : scheme 1 "a" ∈ hosts (topo_of (FatTreeTopo []))) by by_eval.
  assert (H2 : scheme 2 "a" ∈ hosts (topo_of (FatTreeTopo [3%Z]))) by by_eval.
  apply (host_addresses_injective [] [3%Z] _ _ H1 H2). discriminate.
Defined.

(** ** Gateways *)

(** C5, as stated, fails: host h1a has address 2001:1:1::a/64 and gateway
    2001:1:A::ff, whose first 64 bits are 2001:1:a:0, not 2001:1:1:0. *)
Lemma h1a_gateway_outside_prefix :
  mkHost "h1a" "00:00:00:00:00:1A" "2001:1:1::a/64" "2001:1:A::ff"
    ∈ hosts fattree
  ∧ prefix_bits 64 <$> address_of "2001:1:1::a/64" = Some 0x2001000100010000%Z
  ∧ prefix_bits 64 <$> address_of "2001:1:A::ff" = Some 0x20010001000a0000%Z
  ∧ ¬ same_prefix 64 "2001:1:1::a/64" "2001:1:A::ff".
Proof.
  split; [by_eval |].
  split; [vm_compute; reflexivity |].
  split; [vm_compute; reflexivity |].
  by_eval.
Qed.

Lemma fattree_gateways :
  Forall (λ h, same_prefix 32 (h_ipv6 h) (h_gw h)
               ∧ ¬ same_prefix 64 (h_ipv6 h) (h_gw h))
         (hosts fattree).
Proof. by_eval. Qed.

(** C5, amended: for every generated host the gateway address agrees with
    the host's own address on the first 32 bits (200p:1); it is never in the
    host's /64. *)
Theorem gateway_prefix h :
  h ∈ hosts fattree →
  same_prefix 32 (h_ipv6 h) (h_gw h) ∧ ¬ same_prefix 64 (h_ipv6 h) (h_gw h).
Proof.
  intros Hh. pose proof fattree_gateways as HF.
  rewrite Forall_forall in HF. exact (HF h Hh).
Qed.

Lemma gateway_prefix_witness :
  same_prefix 32 "2003:1:1::c/64" "2003:1:C::ff".
Proof.
  assert (Hh : scheme 3 "c" ∈ hosts fattree) by by_eval.
  exact (proj1 (gateway_prefix (scheme 3 "c") Hh)).
Defined.

(** ** Host configuration *)

Lemma config_shell Host_config ipv6 gw h :
  shell (config Host_config ipv6 gw h).2
  = (shell (Host_config h).2
     ++ ["ip -4 addr flush dev " +:+ intf (Host_config h).2;
         "ip -6 addr flush dev " +:+ intf (Host_config h).2;
         "ip -6 addr add " +:+ ipv6 +:+ " dev " +:+ intf (Host_config h).2]
     ++ (if truthy gw
         then ["ip -6 route add default via " +:+ default "None" gw]
         else [])
     ++ ["/sbin/ethtool --offload " +:+ intf (Host_config h).2 +:+ " rx off";
         "/sbin/ethtool --offload " +:+ intf (Host_config h).2 +:+ " tx off";
         "/sbin/ethtool --offload " +:+ intf (Host_config h).2 +:+ " sg off"])%list.
Proof.
  unfold config. unfold mbind at 1. unfold HostM_bind at 1.
  destruct (Host_config h) as [[] [dev sh upd]].
  destruct (truthy gw);
    lazy beta iota zeta delta [for_in mbind mret HostM_bind HostM_ret cmd
      defaultIntf set_updateIP fst snd intf shell updateIP];
    rewrite <- !app_assoc; reflexivity.
Qed.

Lemma config_cmds_eq Host_config ipv6 gw h :
  config_cmds Host_config ipv6 gw h
  = (["ip -4 addr flush dev " +:+ intf (Host_config h).2;
      "ip -6 addr flush dev " +:+ intf (Host_config h).2;
      "ip -6 addr add " +:+ ipv6 +:+ " dev " +:+ intf (Host_config h).2]
     ++ (if truthy gw
         then ["ip -6 route add default via " +:+ default "None" gw]
         else [])
     ++ ["/sbin/ethtool --offload " +:+ intf (Host_config h).2 +:+ " rx off";
         "/sbin/ethtool --offload " +:+ intf (Host_config h).2 +:+ " tx off";
         "/sbin/ethtool --offload " +:+ intf (Host_config h).2 +:+ " sg off"])%list.
Proof.
  unfold config_cmds. rewrite config_shell. apply drop_app_length.
Qed.

Lemma truthy_present gw : truthy gw = true ↔ ∃ g, gw = Some g ∧ g ≠ "".
Proof.
  destruct gw as [g |]; simpl.
  - rewrite negb_true_iff, String.eqb_neq. split.
    + intros Hg. by exists g.
    + by intros (g' & [= <-] & Hg).
  - split; [discriminate | by intros (g & [=] & _)].
Qed.

(** C6: the commands [config] sends after those of [Host.config] are
    exactly these, in this order: the flush of the IPv4 addresses of the
    default interface, the flush of its IPv6 addresses, the assignment of
    the given address [ipv6] to it, the default IPv6 route through the
    gateway -- sent if and only if a gateway is present, that is [ipv6_gw]
    is a non-empty string -- and the switching off of the rx, tx and sg
    offload of the interface; with no gateway the offload commands directly
    follow the assignment. *)
Theorem config_order Host_config ipv6 gw h :
  shell (config Host_config ipv6 gw h).2
    = (shell (Host_config h).2 ++ config_cmds Host_config ipv6 gw h)%list
  ∧ config_cmds Host_config ipv6 gw h
    = (["ip -4 addr flush dev " +:+ intf (Host_config h).2;
        "ip -6 addr flush dev " +:+ intf (Host_config h).2;
        "ip -6 addr add " +:+ ipv6 +:+ " dev " +:+ intf (Host_config h).2]
       ++ match gw with
          | Some g =>
              if decide (g = "") then []
              else ["ip -6 route add default via " +:+ g]
          | None => []
          end
       ++ ["/sbin/ethtool --offload " +:+ intf (Host_config h).2 +:+ " rx off";
           "/sbin/ethtool --offload " +:+ intf (Host_config h).2 +:+ " tx off";
           "/sbin/ethtool --offload " +:+ intf (Host_config h).2 +:+ " sg off"])%list
  ∧ step_of <$> config_cmds Host_config ipv6 gw h
    = Some <$> ([FlushIPv4; FlushIPv6; AssignAddress]
                ++ (if truthy gw then [InstallRoute] else [])
                ++ [DisableOffload; DisableOffload; DisableOffload])%list
  ∧ (Some InstallRoute ∈ step_of <$> config_cmds Host_config ipv6 gw h
     ↔ ∃ g, gw = Some g ∧ g ≠ "")
  ∧ step_of <$> config_cmds Host_config ipv6 None h
    = Some <$> [FlushIPv4; FlushIPv6; AssignAddress;
                DisableOffload; DisableOffload; DisableOffload].
Proof.
  assert (Hsteps : step_of <$> config_cmds Host_config ipv6 gw h
    = Some <$> ([FlushIPv4; FlushIPv6; AssignAddress]
                ++ (if truthy gw then [InstallRoute] else [])
                ++ [DisableOffload; DisableOffload; DisableOffload])%list).
  { rewrite config_cmds_eq. destruct (truthy gw); vm_compute; reflexivity. }
  split; [| split; [| split; [exact Hsteps | split]]].
  - rewrite config_cmds_eq. apply config_shell.
  - rewrite config_cmds_eq. destruct gw as [g |]; [| reflexivity].
    cbn [truthy default]. destruct (decide (g = "")) as [-> | Hne].
    + reflexivity.
    + apply String.eqb_neq in Hne. rewrite Hne. reflexivity.
  - rewrite Hsteps, <- truthy_present.
    destruct (truthy gw).
    + split; [reflexivity | intros _; by_eval].
    + split; [| discriminate]. intros Hin. exfalso. revert Hin. by_eval.
  - rewrite config_cmds_eq. vm_compute. reflexivity.
Qed.

(** ** [updateIP] *)

Lemma config_updateIP Host_config ipv6 gw h :
  updateIP (config Host_config ipv6 gw h).2
  = Some (λ _, item (split "/" ipv6) 0).
Proof.
  unfold config. unfold mbind at 1. unfold HostM_bind at 1.
  destruct (Host_config h) as [[] [dev sh upd]].
  destruct (truthy gw); reflexivity.
Qed.

Lemma split_before_first c s : ∃ ws, split c s = before_first c s :: ws.
Proof.
  induction s as [| d s [ws IH]]; simpl.
  - by exists [].
  - destruct (decide (d = c)); [by eexists |].
    rewrite IH. by eexists.
Qed.

Lemma before_first_free c s : ¬ contains c (before_first c s).
Proof.
  unfold contains. induction s as [| d s IH]; simpl.
  - apply not_elem_of_nil.
  - destruct (decide (d = c)) as [-> | Hne]; simpl.
    + apply not_elem_of_nil.
    + rewrite not_elem_of_cons. split; [congruence | exact IH].
Qed.

Lemma before_first_cut c s :
  (∃ rest, s = before_first c s +:+ String c rest)
  ∨ (s = before_first c s ∧ ¬ contains c s).
Proof.
  unfold contains. induction s as [| d s IH]; simpl.
  - right. split; [reflexivity | apply not_elem_of_nil].
  - destruct (decide (d = c)) as [-> | Hne]; simpl.
    + left. by exists s.
    + destruct IH as [[rest Hs] | [Hs Hc]].
      * left. exists rest.
        change (String d s = String d (before_first c s +:+ String c rest)).
        by f_equal.
      * right. rewrite <- Hs. split; [reflexivity |].
        rewrite not_elem_of_cons. split; [congruence | exact Hc].
Qed.

Lemma fattree_hosts_prefix_length :
  Forall (λ h, h_ipv6 h = before_first "/" (h_ipv6 h) +:+ "/64")
         (hosts fattree).
Proof. by_eval. Qed.

(** C9: after [config], the [updateIP] of the default interface returns the
    configured address without its prefix length: the part of [ipv6] before
    its first [/] (all of it when it has none).  For each generated host that
    is its address without the final [/64]. *)
Theorem updateIP_after_config Host_config ipv6 gw h :
  ∃ f, updateIP (config Host_config ipv6 gw h).2 = Some f
    ∧ f () = inr (before_first "/" ipv6)
    ∧ ¬ contains "/" (before_first "/" ipv6)
    ∧ ((∃ rest, ipv6 = before_first "/" ipv6 +:+ "/" +:+ rest)
       ∨ (ipv6 = before_first "/" ipv6 ∧ ¬ contains "/" ipv6))
    ∧ Forall (λ h, h_ipv6 h = before_first "/" (h_ipv6 h) +:+ "/64")
             (hosts fattree).
Proof.
  exists (λ _, item (split "/" ipv6) 0).
  split; [apply config_updateIP |].
  split.
  { destruct (split_before_first "/" ipv6) as [ws ->]. reflexivity. }
  split; [apply before_first_free |].
  split; [apply before_first_cut | apply fattree_hosts_prefix_length].
Qed.

(** Host h1a on interface h1a-eth0, with nothing sent by [Host.config]. *)
Example config_h1a :
  config_cmds (mret tt) "2001:1:1::a/64" (Some "2001:1:A::ff")
              (mkHostNode "h1a-eth0" [] None)
  = ["ip -4 addr flush dev h1a-eth0";
     "ip -6 addr flush dev h1a-eth0";
     "ip -6 addr add 2001:1:1::a/64 dev h1a-eth0";
     "ip -6 route add default via 2001:1:A::ff";
     "/sbin/ethtool --offload h1a-eth0 rx off";
     "/sbin/ethtool --offload h1a-eth0 tx off";
     "/sbin/ethtool --offload h1a-eth0 sg off"].
Proof. vm_compute. reflexivity. Qed.

(** * Further properties *)

(** ** The switch loop *)

Lemma add_node_elem name o ns : (name, o) ∈ add_node name o ns.
Proof.
  induction ns as [| [m o'] ns IH]; cbn [add_node fst].
  - apply list_elem_of_here.
  - destruct (decide (m = name)); [apply list_elem_of_here |].
    by apply list_elem_of_further.
Qed.

Lemma add_node_other name o ns m o' :
  m ≠ name → (m, o') ∈ add_node name o ns ↔ (m, o') ∈ ns.
Proof.
  intros Hne. induction ns as [| [m1 o1] ns IH]; cbn [add_node fst].
  - rewrite list_elem_of_singleton. split; [| by intros ?%elem_of_nil].
    intros [= -> _]. done.
  - destruct (decide (m1 = name)) as [-> | Hne1].
    + rewrite !elem_of_cons. split; (intros [[= -> _] | Hin]; [done | by right]).
    + rewrite !elem_of_cons, IH. done.
Qed.

Lemma add_node_in name o ns x :
  x ∈ add_node name o ns → x ∈ ns ∨ x = (name, o).
Proof.
  induction ns as [| [m1 o1] ns IH]; cbn [add_node fst].
  - intros ->%list_elem_of_singleton. by right.
  - destruct (decide (m1 = name)) as [-> | Hne1].
    + intros [-> | Hin]%elem_of_cons; [by right |].
      left. by apply list_elem_of_further.
    + intros [-> | Hin]%elem_of_cons; [left; apply list_elem_of_here |].
      destruct (IH Hin) as [Hin' | ->]; [| by right].
      left. by apply list_elem_of_further.
Qed.

Lemma add_node_fresh name o ns :
  name ∉ ns.*1 → add_node name o ns = (ns ++ [(name, o)])%list.
Proof.
  induction ns as [| [m1 o1] ns IH]; cbn [add_node fst]; [done |].
  rewrite fmap_cons, not_elem_of_cons. cbn [fst]. intros [Hne Hnin].
  rewrite decide_False by congruence. by rewrite IH.
Qed.

Lemma add_node_names name o ns :
  (add_node name o ns).*1
  = if decide (name ∈ ns.*1) then ns.*1 else (ns.*1 ++ [name])%list.
Proof.
  induction ns as [| [m1 o1] ns IH]; cbn [add_node fst].
  - rewrite decide_False by apply not_elem_of_nil. done.
  - rewrite !fmap_cons. cbn [fst].
    destruct (decide (m1 = name)) as [-> | Hne1].
    + rewrite decide_True by apply list_elem_of_here. done.
    + rewrite fmap_cons, IH. cbn [fst].
      destruct (decide (name ∈ ns.*1)) as [Hin | Hnin].
      * rewrite decide_True by (by apply list_elem_of_further). done.
      * rewrite decide_False; [done |].
        rewrite not_elem_of_cons. split; [congruence | done].
Qed.

(** What one pass of the switch loop does, by the range of its index. *)
Lemma switch_step_run sw i t :
  switch_step sw i t
  = if bool_decide (i ≤ 4)%Z then
      let n := "s" +:+ str i +:+ "_core" +:+ str i in
      inr (mkSwitches (<[i := n]> (cores sw)) (aggs sw) (edges sw),
           mkTopo (add_node n (SwitchOpts CPU_PORT) (nodes t)) (links t))
    else if bool_decide (i ≤ 12)%Z then
      let n := "s" +:+ str i +:+ "_agg" +:+ str (i - 4) in
      inr (mkSwitches (cores sw) (<[i - 4 := n]> (aggs sw)) (edges sw),
           mkTopo (add_node n (SwitchOpts CPU_PORT) (nodes t)) (links t))
    else
      let n := "s" +:+ str i +:+ "_edge" +:+ str (i - 12) in
      inr (mkSwitches (cores sw) (aggs sw) (<[i - 12 := n]> (edges sw)),
           mkTopo (add_node n (SwitchOpts CPU_PORT) (nodes t)) (links t)).
Proof.
  unfold switch_step.
  repeat case_bool_decide; try lia; reflexivity.
Qed.

Lemma switch_step_node sw i t :
  ∃ n sw', switch_step sw i t
           = inr (sw', mkTopo (add_node n (SwitchOpts CPU_PORT) (nodes t))
                              (links t)).
Proof.
  rewrite switch_step_run. repeat case_bool_decide; by eexists _, _.
Qed.

(** X1: the three tests of the loop body are independent [if]s, yet for
    every integer index exactly one of them holds.  A pass never fails and
    adds no link.  It makes the node of one name [n] a switch with
    control-plane port 255 -- a new node at the end when the graph had no
    node of that name, the node of that name replaced otherwise -- and
    leaves every other node as it was.  It records [n] in exactly one
    dictionary: [cores] at key [i] when i <= 4 (zero and negative indices
    too), [aggs] at key [i-4] when 4 < i <= 12, [edges] at key [i-12] when
    12 < i. *)
Theorem switch_step_adds_one sw i t :
  ∃ n sw' t',
    switch_step sw i t = inr (sw', t')
    ∧ links t' = links t
    ∧ (n, SwitchOpts 255) ∈ nodes t'
    ∧ (∀ m o, m ≠ n → (m, o) ∈ nodes t' ↔ (m, o) ∈ nodes t)
    ∧ (n ∉ (nodes t).*1 → nodes t' = (nodes t ++ [(n, SwitchOpts 255)])%list)
    ∧ (n ∈ (nodes t).*1 → (nodes t').*1 = (nodes t).*1)
    ∧ (((i ≤ 4)%Z ∧ n = "s" +:+ str i +:+ "_core" +:+ str i
        ∧ sw' = mkSwitches (<[i := n]> (cores sw)) (aggs sw) (edges sw))
       ∨ ((4 < i ≤ 12)%Z ∧ n = "s" +:+ str i +:+ "_agg" +:+ str (i - 4)
          ∧ sw' = mkSwitches (cores sw) (<[i - 4 := n]> (aggs sw)) (edges sw))
       ∨ ((12 < i)%Z ∧ n = "s" +:+ str i +:+ "_edge" +:+ str (i - 12)
          ∧ sw' = mkSwitches (cores sw) (aggs sw) (<[i - 12 := n]> (edges sw)))).
Proof.
  assert (Hpost : ∀ n sw',
    switch_step sw i t
    = inr (sw', mkTopo (add_node n (SwitchOpts CPU_PORT) (nodes t)) (links t)) →
    ∃ t', switch_step sw i t = inr (sw', t')
      ∧ links t' = links t
      ∧ (n, SwitchOpts 255) ∈ nodes t'
      ∧ (∀ m o, m ≠ n → (m, o) ∈ nodes t' ↔ (m, o) ∈ nodes t)
      ∧ (n ∉ (nodes t).*1 → nodes t' = (nodes t ++ [(n, SwitchOpts 255)])%list)
      ∧ (n ∈ (nodes t).*1 → (nodes t').*1 = (nodes t).*1)).
  { intros n sw' Hrun. eexists. split; [exact Hrun |]. cbn [nodes links].
    split; [reflexivity |]. split; [apply add_node_elem |].
    split; [intros m o Hne; by apply add_node_other |].
    split; [apply add_node_fresh |].
    intros Hin. rewrite add_node_names. by rewrite decide_True. }
  pose proof (switch_step_run sw i t) as Hrun.
  repeat case_bool_decide; cbv zeta in Hrun;
    destruct (Hpost _ _ Hrun) as (t' & Ht' & Hl & Hn & Ho & Hf & Hr);
    eexists _, _, t';
    (split; [exact Ht' |]); (split; [exact Hl |]); (split; [exact Hn |]);
    (split; [exact Ho |]); (split; [exact Hf |]); (split; [exact Hr |]).
  - left. done.
  - right. left. split; [lia | done].
  - right. right. split; [lia | done].
Qed.

(** X2: the switch loop over any list of indices never fails and leaves
    the links alone.  It loses no node name and adds at most one node per
    index; every node it adds or replaces is a switch with control-plane
    port [CPU_PORT]; and a graph whose names were unique keeps them
    unique. *)
Theorem switch_loop_invariant xs sw t :
  ∃ sw' t',
    for_in xs switch_step sw t = inr (sw', t')
    ∧ links t' = links t
    ∧ (nodes t).*1 ⊆ (nodes t').*1
    ∧ (List.length (nodes t) ≤ List.length (nodes t')
       ≤ List.length (nodes t) + List.length xs)%nat
    ∧ (∀ m o, (m, o) ∈ nodes t' → (m, o) ∈ nodes t ∨ o = SwitchOpts CPU_PORT)
    ∧ (NoDup (nodes t).*1 → NoDup (nodes t').*1).
Proof.
  revert sw t. induction xs as [| i xs IH]; intros sw t.
  - exists sw, t. split; [reflexivity |]. split; [reflexivity |].
    split; [done |]. split; [cbn [List.length]; lia |].
    split; [by left | done].
  - change (for_in (i :: xs) switch_step sw t)
      with (match switch_step sw i t with
            | inl e => inl e
            | inr (a, t') => for_in xs switch_step a t'
            end).
    destruct (switch_step_node sw i t) as (n & sw1 & ->).
    set (t1 := mkTopo (add_node n (SwitchOpts CPU_PORT) (nodes t)) (links t)).
    destruct (IH sw1 t1) as (sw' & t' & -> & Hl & Hsub & Hlen & Hall & Hnd).
    pose proof (add_node_names n (SwitchOpts CPU_PORT) (nodes t)) as Hnames.
    subst t1. cbn [nodes links] in Hl, Hsub, Hlen, Hall, Hnd.
    assert (Hlen1 : (List.length (nodes t)
                     ≤ List.length (add_node n (SwitchOpts CPU_PORT) (nodes t))
                     ≤ S (List.length (nodes t)))%nat).
    { pose proof (f_equal List.length Hnames) as Hl1.
      rewrite length_fmap in Hl1.
      destruct (decide (n ∈ (nodes t).*1));
        rewrite ?length_app, length_fmap in Hl1; cbn [List.length] in Hl1; lia. }
    exists sw', t'. split; [reflexivity |]. split; [exact Hl |].
    split; [| split; [| split]].
    + intros m Hm. apply Hsub. rewrite Hnames.
      destruct (decide (n ∈ (nodes t).*1)); [exact Hm |].
      apply elem_of_app. by left.
    + cbn [List.length]. lia.
    + intros m o Hin. destruct (Hall m o Hin) as [Hin1 | ->]; [| by right].
      apply add_node_in in Hin1 as [Hin1 | [= _ ->]]; [by left | by right].
    + intros Hnd0. apply Hnd. rewrite Hnames.
      destruct (decide (n ∈ (nodes t).*1)) as [Hin | Hnin]; [exact Hnd0 |].
      apply NoDup_app. split; [exact Hnd0 |]. split.
      * intros m Hm ->%list_elem_of_singleton. done.
      * apply NoDup_singleton.
Qed.

(** ** The dictionaries *)

Lemma fattree_dictionary_keys :
  Forall (λ kv, 1 ≤ kv.1 ≤ 4)%Z (map_to_list (cores fattree_switches))
  ∧ Forall (λ kv, 1 ≤ kv.1 ≤ 8)%Z (map_to_list (aggs fattree_switches))
  ∧ Forall (λ kv, 1 ≤ kv.1 ≤ 8)%Z (map_to_list (edges fattree_switches)).
Proof. split; [by_eval | split; by_eval]. Qed.

Lemma lookup_outside (d : gmap Z string) (lo hi i : Z) :
  Forall (λ kv, lo ≤ kv.1 ≤ hi)%Z (map_to_list d) →
  ¬ (lo ≤ i ≤ hi)%Z → d !! i = None.
Proof.
  intros HF Hi. destruct (d !! i) as [v |] eqn:Hv; [| reflexivity].
  exfalso. apply Hi.
  exact (Forall_map_to_list (λ k _, lo ≤ k ≤ hi)%Z d HF i v Hv).
Qed.

(** X3: what the three dictionaries hold when the constructor is done.
    [cores] has exactly the keys 1..4 and [aggs] and [edges] exactly the
    keys 1..8; core [i] is the switch s{i}_core{i}, aggregation switch [i]
    is s{i+4}_agg{i} and edge switch [i] is s{i+12}_edge{i}.  A subscript
    with any other key finds nothing (and raises [KeyError]). *)
Theorem switch_dictionaries i :
  cores fattree_switches !! i
  = (if bool_decide (1 ≤ i ≤ 4)%Z
     then Some ("s" +:+ str i +:+ "_core" +:+ str i) else None)
  ∧ aggs fattree_switches !! i
    = (if bool_decide (1 ≤ i ≤ 8)%Z
       then Some ("s" +:+ str (i + 4) +:+ "_agg" +:+ str i) else None)
  ∧ edges fattree_switches !! i
    = (if bool_decide (1 ≤ i ≤ 8)%Z
       then Some ("s" +:+ str (i + 12) +:+ "_edge" +:+ str i) else None).
Proof.
  destruct fattree_dictionary_keys as (Hc & Ha & He).
  split; [| split]; case_bool_decide as Hi;
    try (by eapply lookup_outside);
    (assert (Hcase : (i = 1 ∨ i = 2 ∨ i = 3 ∨ i = 4 ∨ i = 5 ∨ i = 6
                      ∨ i = 7 ∨ i = 8)%Z) by lia);
    clear -Hcase Hi;
    repeat (destruct Hcase as [-> | Hcase]);
    try subst i; try lia; vm_compute; reflexivity.
Qed.

(** ** The shape of the graph *)

Lemma fattree_links_tiers :
  Forall (λ l,
      (tier_of fattree_switches l.1 = Some Core
       ∧ tier_of fattree_switches l.2 = Some Aggregation)
      ∨ (tier_of fattree_switches l.1 = Some Aggregation
         ∧ tier_of fattree_switches l.2 = Some Edge)
      ∨ (tier_of fattree_switches l.1 = Some Edge
         ∧ tier_of fattree_switches l.2 = None
         ∧ is_host fattree l.2 = true))
    (links fattree).
Proof. by_eval. Qed.

Lemma fattree_links_NoDup : NoDup (links fattree).
Proof. by_eval. Qed.

(** X4: every link of the generated graph joins two neighbouring tiers and
    is written upper end first: a core with an aggregation switch, an
    aggregation with an edge switch, or an edge switch with a host.  So no
    link joins two switches of one tier, two hosts, or skips a tier; no link
    is a loop; and no link is entered twice, in either direction. *)
Theorem links_join_adjacent_tiers x y :
  (x, y) ∈ links fattree →
  ((tier_of fattree_switches x = Some Core
    ∧ tier_of fattree_switches y = Some Aggregation)
   ∨ (tier_of fattree_switches x = Some Aggregation
      ∧ tier_of fattree_switches y = Some Edge)
   ∨ (tier_of fattree_switches x = Some Edge
      ∧ tier_of fattree_switches y = None
      ∧ is_host fattree y = true))
  ∧ x ≠ y
  ∧ ((y, x) ∉ links fattree)
  ∧ NoDup (links fattree).
Proof.
  intros Hl. pose proof fattree_links_tiers as HF.
  rewrite Forall_forall in HF.
  pose proof (HF _ Hl) as Hxy. cbn [fst snd] in Hxy.
  split; [exact Hxy |]. split; [| split; [| exact fattree_links_NoDup]].
  - intros ->. destruct Hxy as [[? ?] | [[? ?] | (? & ? & ?)]]; congruence.
  - intros Hl'. pose proof (HF _ Hl') as Hyx. cbn [fst snd] in Hyx.
    destruct Hxy as [[? ?] | [[? ?] | (? & ? & ?)]];
      destruct Hyx as [[? ?] | [[? ?] | (? & ? & ?)]]; congruence.
Qed.

Lemma links_join_adjacent_tiers_witness :
  tier_of fattree_switches "s13_edge1" = Some Edge
  ∧ is_host fattree "h1a" = true
  ∧ (("h1a", "s13_edge1") ∉ links fattree).
Proof.
  assert (Hl : ("s13_edge1", "h1a") ∈ links fattree) by by_eval.
  destruct (links_join_adjacent_tiers _ _ Hl)
    as ([[Hc _] | [[Hc _] | (He & _ & Hh)]] & _ & Hrev & _);
    [exfalso; revert Hc; by_eval | exfalso; revert Hc; by_eval |].
  split; [exact He | split; [exact Hh | exact Hrev]].
Defined.

Lemma fattree_host_attachment :
  Forall (λ p, Forall (λ l,
      option_list (edges fattree_switches
                     !! (2 * p - (if bool_decide (l = "a" ∨ l = "b")%char
                                  then 1 else 0))%Z)
      = neighbours fattree (h_name (scheme p l))
      ∧ List.length (neighbours fattree (h_name (scheme p l))) = 1%nat)
    letters) (range 1 5).
Proof. by_eval. Qed.

(** X5: a host has exactly one link, to an edge switch of its own pod:
    hosts a and b of pod [p] hang off edge switch [2p-1], hosts c and d off
    edge switch [2p]. *)
Theorem host_attachment p l :
  (1 ≤ p ≤ 4)%Z → l ∈ letters →
  ∃ e, edges fattree_switches
         !! (2 * p - (if bool_decide (l = "a" ∨ l = "b")%char then 1 else 0))%Z
       = Some e
     ∧ neighbours fattree (h_name (scheme p l)) = [e]
     ∧ pod_of (2 * p - (if bool_decide (l = "a" ∨ l = "b")%char then 1 else 0))
       = p.
Proof.
  intros Hp Hl. pose proof fattree_host_attachment as HF.
  rewrite Forall_forall in HF.
  assert (Hp' : p ∈ range 1 5) by (unfold range; apply elem_of_seqZ; lia).
  specialize (HF p Hp'). rewrite Forall_forall in HF.
  destruct (HF l Hl) as [Hn Hlen].
  destruct (edges fattree_switches !! _) as [e |] eqn:He.
  - exists e. split; [reflexivity |]. split; [by rewrite <- Hn |].
    unfold pod_of. case_bool_decide.
    + replace (2 * p - 1 - 1)%Z with ((p - 1) * 2)%Z by lia.
      rewrite Z.div_mul by lia. lia.
    + replace (2 * p - 0 - 1)%Z with (1 + (p - 1) * 2)%Z by lia.
      rewrite Z.div_add by lia. change (1 / 2)%Z with 0%Z. lia.
  - rewrite <- Hn in Hlen. discriminate Hlen.
Qed.

Lemma host_attachment_witness :
  neighbours fattree "h3c" = ["s18_edge6"].
Proof.
  assert (Hp : (1 ≤ 3 ≤ 4)%Z) by lia.
  assert (Hl : "c"%char ∈ letters) by by_eval.
  destruct (host_attachment 3 "c" Hp Hl) as (e & He & Hn & _).
  vm_compute in He. injection He as <-. exact Hn.
Defined.

(** X6: within a pod the aggregation and edge switches form a full mesh,
    and no aggregation-edge link leaves a pod: aggregation switch [a] and
    edge switch [e] are linked exactly when [(a-1)/2 = (e-1)/2], that is when
    both are of the same of the four pods. *)
Theorem pod_is_full_mesh a an e en :
  aggs fattree_switches !! a = Some an →
  edges fattree_switches !! e = Some en →
  (linked fattree an en ↔ pod_of a = pod_of e)
  ∧ (1 ≤ pod_of a ≤ 4)%Z ∧ (1 ≤ pod_of e ≤ 4)%Z.
Proof.
  intros Ha He. split; [exact (pod_mesh a an e en Ha He) |].
  destruct fattree_dictionary_keys as (_ & Hka & Hke).
  pose proof (Forall_map_to_list (λ k _, 1 ≤ k ≤ 8)%Z _ Hka a an Ha) as Ha'.
  pose proof (Forall_map_to_list (λ k _, 1 ≤ k ≤ 8)%Z _ Hke e en He) as He'.
  cbn beta in Ha', He'. unfold pod_of.
  assert (Hdiv : ∀ k, (1 ≤ k ≤ 8 → 0 ≤ (k - 1) / 2 < 4)%Z).
  { intros k Hk. clear -Hk. split; [apply Z.div_pos; lia |].
    apply Z.div_lt_upper_bound; lia. }
  specialize (Hdiv a Ha') as Hda. specialize (Hdiv e He') as Hde. lia.
Qed.

Lemma pod_is_full_mesh_witness :
  linked fattree "s7_agg3" "s16_edge4"
  ∧ ¬ linked fattree "s7_agg3" "s17_edge5".
Proof.
  assert (Ha : aggs fattree_switches !! 3%Z = Some "s7_agg3")
    by (vm_compute; reflexivity).
  assert (He4 : edges fattree_switches !! 4%Z = Some "s16_edge4")
    by (vm_compute; reflexivity).
  assert (He5 : edges fattree_switches !! 5%Z = Some "s17_edge5")
    by (vm_compute; reflexivity).
  split.
  - apply (proj1 (pod_is_full_mesh 3 _ 4 _ Ha He4)). reflexivity.
  - rewrite (proj1 (pod_is_full_mesh 3 _ 5 _ Ha He5)). discriminate.
Defined.

(** ** Paths *)

Lemma neighbours_linked t x y : y ∈ neighbours t x ↔ linked t x y.
Proof.
  unfold neighbours, linked. rewrite list_elem_of_omap. split.
  - intros ([a b] & Hin & Hl). cbn [fst snd] in Hl.
    destruct (decide (a = x)) as [-> | Hne].
    + injection Hl as ->. by left.
    + destruct (decide (b = x)) as [-> | Hne']; [| discriminate].
      injection Hl as ->. by right.
  - intros [Hin | Hin].
    + exists (x, y). split; [exact Hin |]. cbn [fst snd].
      by rewrite decide_True.
    + exists (y, x). split; [exact Hin |]. cbn [fst snd].
      destruct (decide (y = x)) as [-> | Hne]; [reflexivity |].
      by rewrite decide_True.
Qed.

Lemma reach_S t k x y :
  y ∈ reach t (S k) x ↔
  y ∈ reach t k x ∨ ∃ z, z ∈ reach t k x ∧ linked t z y.
Proof.
  cbn [reach]. rewrite elem_of_remove_dups, elem_of_app, list_elem_of_bind.
  split; (intros [Hy | (z & Hz & Hzy)]; [by left | right; exists z]).
  - split; [exact Hzy | by apply neighbours_linked].
  - split; [by apply neighbours_linked | exact Hz].
Qed.

Lemma reach_self t k x : x ∈ reach t k x.
Proof.
  induction k as [| k IH]; [apply list_elem_of_here |].
  apply reach_S. by left.
Qed.

(** [reach] finds exactly the nodes joined to [x] by a path of at most [k]
    links. *)
Lemma reach_bsteps t k x y : y ∈ reach t k x ↔ bsteps (linked t) k x y.
Proof.
  split.
  - revert y. induction k as [| k IH]; intros y Hy.
    + apply list_elem_of_singleton in Hy as ->. constructor.
    + apply reach_S in Hy as [Hy | (z & Hz & Hzy)].
      * apply bsteps_S. by apply IH.
      * eapply bsteps_r; [by apply IH | exact Hzy].
  - revert k y. apply bsteps_ind_r.
    + intros n. apply reach_self.
    + intros n y z _ Hyz Hy. apply reach_S. right. by exists y.
Qed.

Lemma fattree_within_6 :
  Forall (λ x, (nodes fattree).*1 ⊆ reach fattree 6 x) (nodes fattree).*1.
Proof. by_eval. Qed.

(** X7: the generated graph is connected, with diameter at most 6: any two
    of its 36 nodes are joined by a path of at most 6 links. *)
Theorem graph_diameter x y :
  x ∈ (nodes fattree).*1 → y ∈ (nodes fattree).*1 →
  bsteps (linked fattree) 6 x y ∧ rtc (linked fattree) x y.
Proof.
  intros Hx Hy. pose proof fattree_within_6 as HF.
  rewrite Forall_forall in HF.
  assert (Hb : bsteps (linked fattree) 6 x y).
  { apply reach_bsteps. by apply (HF x Hx). }
  split; [exact Hb | by eapply rtc_bsteps_2].
Qed.

Lemma graph_diameter_witness :
  bsteps (linked fattree) 6 "h1a" "h4d".
Proof.
  assert (Hx : "h1a" ∈ (nodes fattree).*1) by by_eval.
  assert (Hy : "h4d" ∈ (nodes fattree).*1) by by_eval.
  exact (proj1 (graph_diameter "h1a" "h4d" Hx Hy)).
Defined.

Lemma fattree_host_distances :
  Forall (λ h1, Forall (λ d,
      hosts_at fattree h1 d ⊆ reach fattree d (h_name h1)
      ∧ apart (hosts_at fattree h1 d) (reach fattree (pred d) (h_name h1)))
    [2; 4; 6]%nat) (hosts fattree).
Proof. by_eval. Qed.

Lemma host_distance_cases t h1 h2 : host_distance t h1 h2 ∈ [2; 4; 6]%nat.
Proof.
  unfold host_distance. repeat case_decide.
  - apply list_elem_of_here.
  - apply list_elem_of_further, list_elem_of_here.
  - do 2 apply list_elem_of_further. apply list_elem_of_here.
Qed.

Lemma hosts_at_elem t h1 h2 :
  h2 ∈ hosts t → h2 ≠ h1 →
  h_name h2 ∈ hosts_at t h1 (host_distance t h1 h2).
Proof.
  intros Hin Hne. unfold hosts_at. apply list_elem_of_fmap_2.
  apply list_elem_of_filter. done.
Qed.

(** X8: the exact distance between two different hosts.  Hosts under the
    same edge switch are 2 links apart, hosts of one pod under different
    edge switches 4, hosts of different pods 6 -- there is a path of that
    many links and none shorter. *)
Theorem host_distance_exact h1 h2 :
  h1 ∈ hosts fattree → h2 ∈ hosts fattree → h2 ≠ h1 →
  bsteps (linked fattree) (host_distance fattree h1 h2) (h_name h1) (h_name h2)
  ∧ ¬ bsteps (linked fattree) (pred (host_distance fattree h1 h2))
        (h_name h1) (h_name h2).
Proof.
  intros H1 H2 Hne. pose proof fattree_host_distances as HF.
  rewrite Forall_forall in HF. specialize (HF h1 H1).
  rewrite Forall_forall in HF.
  destruct (HF _ (host_distance_cases fattree h1 h2)) as [Hsub Hapart].
  pose proof (hosts_at_elem fattree h1 h2 H2 Hne) as Hin.
  split.
  - apply reach_bsteps. by apply Hsub.
  - rewrite <- reach_bsteps. unfold apart in Hapart.
    rewrite Forall_forall in Hapart. by apply Hapart.
Qed.

Lemma host_distance_exact_witness :
  bsteps (linked fattree) 4 "h1a" "h1c"
  ∧ ¬ bsteps (linked fattree) 3 "h1a" "h1c".
Proof.
  assert (H1 : scheme 1 "a" ∈ hosts fattree) by by_eval.
  assert (H2 : scheme 1 "c" ∈ hosts fattree) by by_eval.
  assert (Hne : scheme 1 "c" ≠ scheme 1 "a") by discriminate.
  assert (Hd : host_distance fattree (scheme 1 "a") (scheme 1 "c") = 4%nat)
    by (vm_compute; reflexivity).
  pose proof (host_distance_exact _ _ H1 H2 Hne) as Hex.
  rewrite Hd in Hex. exact Hex.
Defined.

Lemma fattree_single_failure :
  Forall (λ s, Forall (λ h1,
      (h_name <$> hosts fattree) ⊆ reach (without fattree s) 6 (h_name h1))
    (hosts fattree))
    (values (cores fattree_switches) ++ values (aggs fattree_switches)).
Proof. by_eval. Qed.

(** X9: the failure of any single core or aggregation switch leaves every
    pair of hosts joined: with the switch and its links removed there is
    still a path of at most 6 links between any two hosts. *)
Theorem single_failure_tolerated s tr h1 h2 :
  tier_of fattree_switches s = Some tr → tr ≠ Edge →
  h1 ∈ hosts fattree → h2 ∈ hosts fattree →
  bsteps (linked (without fattree s)) 6 (h_name h1) (h_name h2).
Proof.
  intros Ht Hne H1 H2.
  assert (Hs : s ∈ (values (cores fattree_switches)
                    ++ values (aggs fattree_switches))%list).
  { apply tier_of_tiered in Ht. unfold tiered in Ht.
    rewrite !elem_of_app, !list_elem_of_fmap in Ht. rewrite elem_of_app.
    destruct Ht as [(n & [= -> _] & Hn) | [(n & [= -> _] & Hn)
                                          | (n & [= _ ->] & _)]];
      [by left | by right | done]. }
  pose proof fattree_single_failure as HF.
  rewrite Forall_forall in HF. specialize (HF s Hs).
  rewrite Forall_forall in HF.
  apply reach_bsteps. apply (HF h1 H1). by apply list_elem_of_fmap_2.
Qed.

Lemma single_failure_tolerated_witness :
  bsteps (linked (without fattree "s5_agg1")) 6 "h1a" "h2c".
Proof.
  assert (Ht : tier_of fattree_switches "s5_agg1" = Some Aggregation)
    by (vm_compute; reflexivity).
  assert (H1 : scheme 1 "a" ∈ hosts fattree) by by_eval.
  assert (H2 : scheme 2 "c" ∈ hosts fattree) by by_eval.
  apply (single_failure_tolerated "s5_agg1" Aggregation
           (scheme 1 "a") (scheme 2 "c") Ht); [discriminate | done | done].
Defined.

(** ** Addresses as numbers *)

Lemma fattree_subnets :
  Forall (λ h1, Forall (λ h2,
      same_prefix 64 (h_ipv6 h1) (h_ipv6 h2) ↔ host_pod h1 = host_pod h2)
    (hosts fattree)) (hosts fattree).
Proof. by_eval. Qed.

(** X10: the pods are the /64 subnets: the addresses of two generated hosts
    lie in the same /64 exactly when the hosts are of the same pod. *)
Theorem pods_are_subnets h1 h2 :
  h1 ∈ hosts fattree → h2 ∈ hosts fattree →
  same_prefix 64 (h_ipv6 h1) (h_ipv6 h2) ↔ host_pod h1 = host_pod h2.
Proof.
  intros H1 H2. pose proof fattree_subnets as HF.
  rewrite Forall_forall in HF. specialize (HF h1 H1).
  rewrite Forall_forall in HF. exact (HF h2 H2).
Qed.

Lemma pods_are_subnets_witness :
  same_prefix 64 "2002:1:1::a/64" "2002:1:1::d/64"
  ∧ ¬ same_prefix 64 "2002:1:1::a/64" "2003:1:1::a/64".
Proof.
  assert (H1 : scheme 2 "a" ∈ hosts fattree) by by_eval.
  assert (H2 : scheme 2 "d" ∈ hosts fattree) by by_eval.
  assert (H3 : scheme 3 "a" ∈ hosts fattree) by by_eval.
  split.
  - apply (pods_are_subnets _ _ H1 H2). reflexivity.
  - intros Hs. apply (pods_are_subnets _ _ H1 H3) in Hs. discriminate Hs.
Defined.

(** X11: the sixteen host addresses and the sixteen gateways all are
    well-formed IPv6 addresses, and as 128-bit numbers the thirty-two are
    pairwise different: no two hosts share an address however it is
    written, no two share a gateway, and no gateway is the address of a
    host. *)
Theorem addresses_distinct :
  ∃ vs, mapM address_of ((h_ipv6 <$> hosts fattree) ++ (h_gw <$> hosts fattree))
        = Some vs
    ∧ List.length vs = 32%nat
    ∧ NoDup vs
    ∧ Forall (λ v, 0 ≤ v < 2 ^ 128)%Z vs.
Proof.
  exists (default [] (mapM address_of
            ((h_ipv6 <$> hosts fattree) ++ (h_gw <$> hosts fattree)))).
  split; [vm_compute; reflexivity |].
  split; [vm_compute; reflexivity |].
  split; by_eval.
Qed.

Lemma fattree_macs :
  Forall (λ p, Forall (λ l,
      parse_mac (h_mac (scheme p l)) = (λ v, 16 * p + v)%Z <$> hex_digit l
      ∧ is_Some (hex_digit l))
    letters) (range 1 5).
Proof. by_eval. Qed.

(** X12: the MAC address of host [l] of pod [p] is a well-formed MAC whose
    first five octets are zero (so it is a unicast address) and whose last
    octet has the pod as its high and the letter as its low hexadecimal
    digit: as a number it is 16p + l, between 0x1A and 0x4D. *)
Theorem mac_value p l :
  (1 ≤ p ≤ 4)%Z → l ∈ letters →
  ∃ v, hex_digit l = Some v ∧ (10 ≤ v ≤ 13)%Z
     ∧ parse_mac (h_mac (scheme p l)) = Some (16 * p + v)%Z
     ∧ Z.testbit (16 * p + v) 40 = false.
Proof.
  intros Hp Hl. pose proof fattree_macs as HF.
  rewrite Forall_forall in HF.
  assert (Hp' : p ∈ range 1 5) by (unfold range; apply elem_of_seqZ; lia).
  specialize (HF p Hp'). rewrite Forall_forall in HF.
  destruct (HF l Hl) as [Hm [v Hv]]. rewrite Hv in Hm.
  exists v. split; [exact Hv |].
  assert (Hrange : (10 ≤ v ≤ 13)%Z).
  { clear -Hl Hv. unfold letters in Hl.
    repeat (apply elem_of_cons in Hl as [-> | Hl]);
      [| | | | by apply elem_of_nil in Hl];
      vm_compute in Hv; injection Hv as <-; lia. }
  split; [exact Hrange |]. split; [exact Hm |].
  apply Z.bits_above_log2; [lia |].
  apply Z.log2_lt_pow2; [lia |]. 
  assert (2 ^ 40 = 1099511627776)%Z by reflexivity. lia.
Qed.

Lemma mac_value_witness :
  parse_mac "00:00:00:00:00:3B" = Some 0x3B%Z.
Proof.
  assert (Hp : (1 ≤ 3 ≤ 4)%Z) by lia.
  assert (Hl : "b"%char ∈ letters) by by_eval.
  destruct (mac_value 3 "b" Hp Hl) as (v & Hv & _ & Hm & _).
  vm_compute in Hv. injection Hv as <-. exact Hm.
Defined.

(** ** More on host configuration *)

Lemma config_intf Host_config ipv6 gw h :
  intf (config Host_config ipv6 gw h).2 = intf (Host_config h).2.
Proof.
  unfold config. unfold mbind at 1. unfold HostM_bind at 1.
  destruct (Host_config h) as [[] [dev sh upd]].
  destruct (truthy gw); reflexivity.
Qed.

Lemma before_first_app c a r :
  ¬ contains c a → before_first c (a +:+ String c r) = a.
Proof.
  unfold contains. induction a as [| d a IH]; intros Hc.
  - change ("" +:+ String c r) with (String c r).
    cbn [before_first]. by rewrite decide_True.
  - cbn in Hc. apply not_elem_of_cons in Hc as [Hd Hc].
    change (String d a +:+ String c r) with (String d (a +:+ String c r)).
    cbn [before_first]. rewrite decide_False by congruence.
    by rewrite IH.
Qed.

(** X13: given an address as [addr/len], [updateIP] gives back [addr]
    whatever the prefix length text is, provided [addr] itself has no
    slash; a further slash in [len] does no harm. *)
Theorem updateIP_strips_length Host_config addr len gw h :
  ¬ contains "/" addr →
  ∃ f, updateIP (config Host_config (addr +:+ "/" +:+ len) gw h).2 = Some f
     ∧ f () = inr addr.
Proof.
  intros Hc. exists (λ _, item (split "/" (addr +:+ "/" +:+ len)) 0).
  split; [apply config_updateIP |].
  destruct (split_before_first "/" (addr +:+ "/" +:+ len)) as [ws ->].
  cbn [item lookup list_lookup]. f_equal.
  by apply before_first_app.
Qed.

Lemma updateIP_strips_length_witness :
  ∃ f, updateIP (config (mret tt) "2001:1:1::a/64/x" None
                        (mkHostNode "h1a-eth0" [] None)).2 = Some f
     ∧ f () = inr "2001:1:1::a".
Proof.
  assert (Hc : ¬ contains "/" "2001:1:1::a") by (unfold contains; by_eval).
  exact (updateIP_strips_length (mret tt) "2001:1:1::a" "64/x" None
           (mkHostNode "h1a-eth0" [] None) Hc).
Defined.

(** X14: what [config] sends depends on its arguments and on the name of
    the interface only, not on what an earlier [config] did: when
    [Host.config] leaves the interface name alone, a second call appends
    exactly the commands it would have sent on the fresh host, and the
    [updateIP] left behind is that of the second call. *)
Theorem config_twice Host_config ipv6 gw ipv6' gw' h :
  (∀ h0, intf (Host_config h0).2 = intf h0) →
  config_cmds Host_config ipv6' gw' (config Host_config ipv6 gw h).2
    = config_cmds Host_config ipv6' gw' h
  ∧ shell (config Host_config ipv6' gw' (config Host_config ipv6 gw h).2).2
    = (shell (Host_config (config Host_config ipv6 gw h).2).2
       ++ config_cmds Host_config ipv6' gw' h)%list
  ∧ updateIP (config Host_config ipv6' gw'
                (config Host_config ipv6 gw h).2).2
    = Some (λ _, item (split "/" ipv6') 0).
Proof.
  intros Hintf.
  assert (Hcmds : config_cmds Host_config ipv6' gw'
                    (config Host_config ipv6 gw h).2
                  = config_cmds Host_config ipv6' gw' h).
  { rewrite !config_cmds_eq, !Hintf, config_intf, Hintf. reflexivity. }
  split; [exact Hcmds |]. split; [| apply config_updateIP].
  rewrite <- Hcmds.
  rewrite (config_shell Host_config ipv6' gw'), <- config_cmds_eq.
  reflexivity.
Qed.

Lemma config_twice_witness :
  config_cmds (mret tt) "2001:1:1::a/64" None
    (config (mret tt) "2001:1:1::b/64" (Some "2001:1:B::ff")
       (mkHostNode "h1a-eth0" [] None)).2
  = ["ip -4 addr flush dev h1a-eth0";
     "ip -6 addr flush dev h1a-eth0";
     "ip -6 addr add 2001:1:1::a/64 dev h1a-eth0";
     "/sbin/ethtool --offload h1a-eth0 rx off";
     "/sbin/ethtool --offload h1a-eth0 tx off";
     "/sbin/ethtool --offload h1a-eth0 sg off"].
Proof.
  assert (Hintf : ∀ h0 : HostNode,
            intf ((mret tt : HostM unit) h0).2 = intf h0) by reflexivity.
  rewrite (proj1 (config_twice (mret tt) "2001:1:1::b/64"
                    (Some "2001:1:B::ff") "2001:1:1::a/64" None
                    (mkHostNode "h1a-eth0" [] None) Hintf)).
  vm_compute. reflexivity.
Defined.

(** ** [split] *)

Lemma join_cons sep w w' ws :
  join sep (w :: w' :: ws) = w +:+ sep +:+ join sep (w' :: ws).
Proof. reflexivity. Qed.

(** X15: splitting at a character loses nothing: the parts joined again
    with that character give the text back; there is one part more than
    there are separators (so at least one, and [[0]] never raises
    [IndexError]), and no part contains the separator. *)
Theorem split_join c s :
  join (String c "") (split c s) = s
  ∧ List.length (split c s)
    = S (List.length (filter (λ d, d = c) (list_ascii_of_string s)))
  ∧ Forall (λ w, ¬ contains c w) (split c s).
Proof.
  unfold contains. induction s as [| d s (IHj & IHl & IHf)].
  - cbn. split; [reflexivity |]. split; [reflexivity |].
    constructor; [apply not_elem_of_nil | constructor].
  - cbn [split list_ascii_of_string].
    destruct (split_before_first c s) as [ws Hs].
    rewrite Hs in IHj, IHl, IHf |- *.
    destruct (decide (d = c)) as [-> | Hne].
    + split; [| split].
      * rewrite join_cons, IHj. reflexivity.
      * rewrite filter_cons_True by reflexivity. cbn [List.length].
        by rewrite <- IHl.
      * constructor; [apply not_elem_of_nil | exact IHf].
    + split; [| split].
      * destruct ws as [| w' ws].
        -- cbn in IHj |- *. by rewrite IHj.
        -- rewrite join_cons in IHj |- *.
           change (String d (before_first c s) +:+ String c "" +:+ join (String c "") (w' :: ws))
             with (String d (before_first c s +:+ String c "" +:+ join (String c "") (w' :: ws))).
           by rewrite IHj.
      * rewrite filter_cons_False by exact Hne. exact IHl.
      * apply Forall_cons in IHf as [Hw Hws]. constructor; [| exact Hws].
        cbn [list_ascii_of_string]. rewrite not_elem_of_cons.
        split; [congruence | exact Hw].
Qed.

(** ** [getControllerIP] *)

Lemma splitlines_head s :
  match splitlines s with
  | [] => s = ""
  | line :: _ =>
      s ≠ ""
      ∧ ¬ contains LF line ∧ ¬ contains CR line
      ∧ (s = line
         ∨ (∃ rest, s = line +:+ String LF rest)
         ∨ (∃ rest, s = line +:+ String CR rest))
  end.
Proof.
  unfold contains. induction s as [| c s IH]; [reflexivity |].
  cbn [splitlines]. case_bool_decide as Hlf.
  { subst c. split; [discriminate |].
    split; [apply not_elem_of_nil |]. split; [apply not_elem_of_nil |].
    right. left. by exists s. }
  case_bool_decide as Hcr.
  { subst c.
    assert (Hgoal : String CR s ≠ ""
      ∧ (LF ∉ list_ascii_of_string "") ∧ (CR ∉ list_ascii_of_string "")
      ∧ (String CR s = ""
         ∨ (∃ rest, String CR s = "" +:+ String LF rest)
         ∨ (∃ rest, String CR s = "" +:+ String CR rest))).
    { split; [discriminate |].
      split; [apply not_elem_of_nil |]. split; [apply not_elem_of_nil |].
      right. right. by exists s. }
    destruct s as [| c' s']; [exact Hgoal |].
    case_bool_decide; exact Hgoal. }
  destruct (splitlines s) as [| w ws].
  - subst s. split; [discriminate |].
    cbn [list_ascii_of_string]. rewrite !not_elem_of_cons.
    split; [split; [congruence | apply not_elem_of_nil] |].
    split; [split; [congruence | apply not_elem_of_nil] |].
    by left.
  - destruct IH as (_ & Hnlf & Hncr & Hcut). split; [discriminate |].
    cbn [list_ascii_of_string]. rewrite !not_elem_of_cons.
    split; [split; [congruence | exact Hnlf] |].
    split; [split; [congruence | exact Hncr] |].
    destruct Hcut as [-> | [[rest ->] | [rest ->]]].
    + by left.
    + right. left. by exists rest.
    + right. right. by exists rest.
Qed.

(** X16: [getControllerIP] returns [None] exactly when the command printed
    nothing at all.  Output that begins with a line end gives the empty
    string, not [None] and not the next line. *)
Theorem getControllerIP_None res :
  (getControllerIP res = None ↔ res = "")
  ∧ getControllerIP (String LF res) = Some ""
  ∧ getControllerIP (String CR res) = Some "".
Proof.
  split; [| split].
  - unfold getControllerIP. pose proof (splitlines_head res) as Hh.
    destruct (splitlines res) as [| line ls].
    + by split.
    + destruct Hh as [Hne _]. split; [discriminate | done].
  - reflexivity.
  - unfold getControllerIP. cbn [splitlines].
    rewrite bool_decide_eq_false_2 by discriminate.
    rewrite bool_decide_eq_true_2 by reflexivity.
    destruct res as [| c' s']; [reflexivity |].
    case_bool_decide; reflexivity.
Qed.

(** X17: what [getControllerIP] returns is the first line of the output:
    it holds no line feed and no carriage return, and the output is that
    line alone or that line followed by a line feed or a carriage return
    and whatever comes after. *)
Theorem getControllerIP_first_line res line :
  getControllerIP res = Some line →
  ¬ contains LF line ∧ ¬ contains CR line
  ∧ (res = line
     ∨ (∃ rest, res = line +:+ String LF rest)
     ∨ (∃ rest, res = line +:+ String CR rest)).
Proof.
  unfold getControllerIP. pose proof (splitlines_head res) as Hh.
  destruct (splitlines res) as [| l ls]; [discriminate |].
  intros [= <-]. destruct Hh as (_ & Hh). exact Hh.
Qed.

Lemma getControllerIP_first_line_witness :
  getControllerIP ("172.18.0.2" +:+ String LF "172.19.0.2") = Some "172.18.0.2"
  ∧ ¬ contains LF "172.18.0.2".
Proof.
  assert (Hr : getControllerIP ("172.18.0.2" +:+ String LF "172.19.0.2")
               = Some "172.18.0.2") by (vm_compute; reflexivity).
  split; [exact Hr |].
  exact (proj1 (getControllerIP_first_line _ _ Hr)).
Defined.
